(** * express-jwt-users: a shallow embedding of the router and its helpers

  The development follows the two source files:
  - [src/credentials.js]: the credential schema, [validate] and the
    validation [middleware];
  - [src/index.js]: the [Users] router, [register], [authorize] and
    [getRandomBytesFrom].

  JavaScript strings are modelled by [string] (8-bit code units), JSON
  documents by the inductive type [json], the file system by a finite map
  from paths to nodes, and the effects of a request by explicit state
  passing over a [World]. *)

From Stdlib Require Import Ascii String List Bool Arith ZArith Lia.
From stdpp Require Import base option gmap strings list pretty.

Open Scope string_scope.
Open Scope list_scope.
Open Scope nat_scope.

(* ===================================================================== *)
(** ** JavaScript values *)
(* ===================================================================== *)

Module JS.

(** The double quote and the control characters that string literals of
    the source spell with an escape. *)
Definition dquote : ascii := "034"%char.
Definition backslash : ascii := "\"%char.
Definition BS : ascii := "008"%char.
Definition TAB : ascii := "009"%char.
Definition LF : ascii := "010"%char.
Definition FF : ascii := "012"%char.
Definition CR : ascii := "013"%char.

Definition str (c : ascii) : string := String c EmptyString.

(** A parsed JSON document.  A number is kept as the text that
    [Number.prototype.toString] gives for it: [JSON.stringify] and template
    literals both print exactly that text, and nothing in the program
    computes with numbers.  An object keeps its properties in insertion
    order. *)
#[warnings="-register-all"]
Inductive json : Type :=
| JNull
| JBool (b : bool)
| JNumber (text : string)
| JString (s : string)
| JArray (items : list json)
| JObject (fields : list (string * json)).

(** [o[k]] on the property list of an object; [None] is [undefined]. *)
Fixpoint get (k : string) (fields : list (string * json)) : option json :=
  match fields with
  | [] => None
  | (k', v) :: rest => if String.eqb k k' then Some v else get k rest
  end.

(** [v[k]] for a named (non index) key [k]: arrays and primitives have no
    such own property. *)
Definition prop (k : string) (v : json) : option json :=
  match v with
  | JObject fields => get k fields
  | _ => None
  end.

Fixpoint join (sep : string) (l : list string) : string :=
  match l with
  | [] => EmptyString
  | [x] => x
  | x :: rest => x +:+ sep +:+ join sep rest
  end.

Definition hex_digit (n : nat) : ascii :=
  match n with
  | 0 => "0" | 1 => "1" | 2 => "2" | 3 => "3" | 4 => "4" | 5 => "5"
  | 6 => "6" | 7 => "7" | 8 => "8" | 9 => "9" | 10 => "a" | 11 => "b"
  | 12 => "c" | 13 => "d" | 14 => "e" | _ => "f"
  end%char.

(** One code unit inside a JSON string literal (QuoteJSONString). *)
Definition escape_char (c : ascii) : string :=
  if Ascii.eqb c dquote then String backslash (str dquote)
  else if Ascii.eqb c backslash then String backslash (str backslash)
  else if Ascii.eqb c BS then String backslash "b"
  else if Ascii.eqb c FF then String backslash "f"
  else if Ascii.eqb c LF then String backslash "n"
  else if Ascii.eqb c CR then String backslash "r"
  else if Ascii.eqb c TAB then String backslash "t"
  else if nat_of_ascii c <? 32 then
    String backslash "u00" +:+
    String (hex_digit (nat_of_ascii c / 16)) (str (hex_digit (nat_of_ascii c mod 16)))
  else str c.

Fixpoint escape (s : string) : string :=
  match s with
  | EmptyString => EmptyString
  | String c rest => escape_char c +:+ escape rest
  end.

Definition quote (s : string) : string :=
  String dquote (escape s +:+ str dquote).

(** [JSON.stringify(v)] without indentation. *)
Fixpoint stringify (v : json) : string :=
  match v with
  | JNull => "null"
  | JBool true => "true"
  | JBool false => "false"
  | JNumber text => text
  | JString s => quote s
  | JArray items => "[" +:+ join "," (map stringify items) +:+ "]"
  | JObject fields =>
      "{" +:+
      join "," (map (fun kv => quote (fst kv) +:+ ":" +:+ stringify (snd kv)) fields)
      +:+ "}"
  end.

(** [String(v)], the conversion a template literal applies to [${v}];
    [None] is [undefined].  Inside an array [null] prints as the empty
    string. *)
Fixpoint to_string (v : json) : string :=
  match v with
  | JNull => "null"
  | JBool true => "true"
  | JBool false => "false"
  | JNumber text => text
  | JString s => s
  | JArray items =>
      join "," (map (fun x => match x with JNull => EmptyString | _ => to_string x end) items)
  | JObject _ => "[object Object]"
  end.

Definition template (v : option json) : string :=
  match v with
  | None => "undefined"
  | Some x => to_string x
  end.

(** [a === b] where [a] is a string and [b] any value or [undefined]. *)
Definition strict_eq_string (a : string) (b : option json) : bool :=
  match b with
  | Some (JString s) => String.eqb a s
  | _ => false
  end.

(** [haystack.includes(needle)]. *)
Fixpoint includes (needle haystack : string) : bool :=
  String.prefix needle haystack ||
  match haystack with
  | EmptyString => false
  | String _ rest => includes needle rest
  end.

End JS.

(* ===================================================================== *)
(** ** Regular expressions of the credential schema *)
(* ===================================================================== *)

Module RegExp.
Import JS.

(** An element of a character class [[...]]: a single character or a
    range [lo-hi]. *)
Inductive class_atom : Type :=
| Chr (c : ascii)
| Range (lo hi : ascii).

Definition atom_matches (a : class_atom) (c : ascii) : bool :=
  match a with
  | Chr x => Ascii.eqb x c
  | Range lo hi =>
      (nat_of_ascii lo <=? nat_of_ascii c) && (nat_of_ascii c <=? nat_of_ascii hi)
  end.

Definition in_class (cls : list class_atom) (c : ascii) : bool :=
  existsb (fun a => atom_matches a c) cls.

(** [.] matches every character but a line terminator. *)
Definition dot (c : ascii) : bool :=
  negb (Ascii.eqb c LF) && negb (Ascii.eqb c CR).

Fixpoint all_chars (p : ascii -> bool) (s : string) : bool :=
  match s with
  | EmptyString => true
  | String c rest => p c && all_chars p rest
  end.

Fixpoint some_char (p : ascii -> bool) (s : string) : bool :=
  match s with
  | EmptyString => false
  | String c rest => p c || some_char p rest
  end.

(** [(?=.*[cls])] at the current position: some character of the class is
    reachable over characters that [.] accepts. *)
Fixpoint lookahead (cls : list class_atom) (s : string) : bool :=
  match s with
  | EmptyString => false
  | String c rest => in_class cls c || (dot c && lookahead cls rest)
  end.

(** [.{n,}$] from the current position to the end of the input. *)
Definition dots_at_least (n : nat) (s : string) : bool :=
  (n <=? String.length s) && all_chars dot s.

(** [^[cls]+$] on the whole input. *)
Definition plus_class (cls : list class_atom) (s : string) : bool :=
  (1 <=? String.length s) && all_chars (in_class cls) s.

End RegExp.

(* ===================================================================== *)
(** ** The part of the jsonschema validator that the schema exercises *)
(* ===================================================================== *)

Module JSONSchema.
Import JS.

(** A [ValidationError]: [property] is the path of the offending instance
    ([instance] for the document, [instance.k] for its property [k]) and
    [name] the keyword that failed. *)
Record ValidationError : Type := {
  property : string;
  name : string
}.

(** A property schema [{ type: 'string', pattern: p }]. *)
Record Schema : Type := {
  properties : list (string * (string -> bool));
  required : list string
}.

(** Keywords of a property schema run in the order written ([type], then
    [pattern]); both skip an [undefined] instance, and with
    [throwError: true] the first failure is thrown. *)
Definition validate_property (key : string) (pattern : string -> bool)
    (instance : option json) : option ValidationError :=
  match instance with
  | None => None
  | Some (JString s) =>
      if pattern s then None
      else Some {| property := "instance." +:+ key; name := "pattern" |}
  | Some _ => Some {| property := "instance." +:+ key; name := "type" |}
  end.

Fixpoint validate_properties (ps : list (string * (string -> bool)))
    (instance : json) : option ValidationError :=
  match ps with
  | [] => None
  | (key, pattern) :: rest =>
      match validate_property key pattern (prop key instance) with
      | Some err => Some err
      | None => validate_properties rest instance
      end
  end.

(** [required: [...]] applies to objects only; an error is attached to the
    object itself. *)
Fixpoint validate_required (keys : list string) (instance : json)
    : option ValidationError :=
  match instance with
  | JObject fields =>
      match keys with
      | [] => None
      | k :: rest =>
          match get k fields with
          | None => Some {| property := "instance"; name := "required" |}
          | Some _ => validate_required rest instance
          end
      end
  | _ => None
  end.

(** [JSONSchema.validate(instance, schema, { throwError: true })]: the
    keywords of the schema run in the order written, [properties] before
    [required]; [None] means the call returned, [Some e] that it threw
    [e]. *)
Definition validate (instance : json) (schema : Schema) : option ValidationError :=
  match validate_properties (properties schema) instance with
  | Some err => Some err
  | None => validate_required (required schema) instance
  end.

End JSONSchema.


(* ===================================================================== *)
(** ** Errors, buffers and the file system *)
(* ===================================================================== *)

Module Node.
Import JS.

(** A JavaScript [Error]: what [err.name] and [err.message] read. *)
Record Error : Type := {
  name : string;
  message : string
}.

(** The outcome of a synchronous call that may throw. *)
Inductive Completion (A : Type) : Type :=
| Return (a : A)
| Throw (e : Error).
Arguments Return {A} a.
Arguments Throw {A} e.

(** The outcome of a promise. *)
Inductive Settled (A : Type) : Type :=
| Resolved (a : A)
| Rejected (e : Error).
Arguments Resolved {A} a.
Arguments Rejected {A} e.

Abbreviation Buffer := (list Byte.byte).

#[global] Instance byte_eq_dec : EqDecision Byte.byte := Byte.byte_eq_dec.

(** A path is the list of its segments below the root, already normalised;
    [path.dirname] drops the last one and [path.join(dir, name)] adds one
    (the collection name is a single segment). *)
Abbreviation Path := (list string).

Definition dirname (p : Path) : Path := removelast p.

Definition join (dir : Path) (name : string) : Path := dir ++ [name].

Inductive node : Type :=
| File (data : Buffer)
| Dir.

(** The file system: the nodes below the root, which is always a
    directory. *)
Abbreviation FS := (gmap (list string) node).

(** System errors, with the message abbreviated to the error code. *)
Definition ENOENT : Error := {| name := "Error"; message := "ENOENT: no such file or directory" |}.
Definition EISDIR : Error := {| name := "Error"; message := "EISDIR: illegal operation on a directory" |}.
Definition ENOTDIR : Error := {| name := "Error"; message := "ENOTDIR: not a directory" |}.
Definition EEXIST : Error := {| name := "Error"; message := "EEXIST: file already exists" |}.

Definition is_dir (p : Path) (fs : FS) : bool :=
  match p with
  | [] => true
  | _ => match fs !! p with Some Dir => true | _ => false end
  end.

(** [mkdirp.sync(base/seg1/.../segn)]: every missing directory on the way
    is created, an existing one is left alone, and a file in the way makes
    the call throw (what was created before stays).  The result is the
    error thrown, if any, and the file system left behind. *)
Fixpoint mkdirp_from (base rest : Path) (fs : FS) : option Error * FS :=
  match rest with
  | [] => (None, fs)
  | seg :: rest' =>
      let p := base ++ [seg] in
      match fs !! p with
      | Some Dir => mkdirp_from p rest' fs
      | Some (File _) => (Some (match rest' with [] => EEXIST | _ => ENOTDIR end), fs)
      | None => mkdirp_from p rest' (<[p := Dir]> fs)
      end
  end.

Definition mkdirp_sync (dir : Path) (fs : FS) : option Error * FS :=
  mkdirp_from [] dir fs.

(** [fs.readFileSync(p)]. *)
Definition readFileSync (p : Path) (fs : FS) : Completion Buffer :=
  match p with
  | [] => Throw EISDIR
  | _ =>
      match fs !! p with
      | Some (File data) => Return data
      | Some Dir => Throw EISDIR
      | None => Throw ENOENT
      end
  end.

(** [fs.writeFileSync(p, data)]: the file is created or replaced; the
    parent has to be a directory and [p] must not be one. *)
Definition writeFileSync (p : Path) (data : Buffer) (fs : FS) : Completion FS :=
  match p with
  | [] => Throw EISDIR
  | _ =>
      match fs !! p with
      | Some Dir => Throw EISDIR
      | _ =>
          if is_dir (dirname p) fs then Return (<[p := File data]> fs)
          else Throw ENOENT
      end
  end.

(** The system's source of random bytes, consumed from the front. *)
Abbreviation Entropy := (nat -> Byte.byte).

(** [crypto.randomBytes(n)]. *)
Definition randomBytes (n : nat) (e : Entropy) : Buffer * Entropy :=
  (map e (seq 0 n), fun i => e (n + i)).

End Node.

(* ===================================================================== *)
(** ** Signed tokens *)
(* ===================================================================== *)

Module JWT.
Import JS Node.

(** A signed token, with the signature kept symbolically as the key that
    produced it: a token verifies under a secret exactly when it was
    signed with that secret. *)
Record Token : Type := {
  payload : list (string * json);
  signed_with : Buffer
}.

(** The payload object as it is serialised: a property whose value is
    [undefined] is left out. *)
Fixpoint defined (fields : list (string * option json)) : list (string * json) :=
  match fields with
  | [] => []
  | (k, Some v) :: rest => (k, v) :: defined rest
  | (_, None) :: rest => defined rest
  end.

(** [JWT.sign(payload, secret)] with the default options: the issue time
    [iat] is added to the payload, which is then signed. *)
Definition sign (claims : list (string * option json)) (secret : Buffer) (now : N) : Token :=
  {| payload := defined claims ++ [("iat", JNumber (pretty now))];
     signed_with := secret |}.

Definition UnauthorizedError (msg : string) : Error :=
  {| name := "UnauthorizedError"; message := msg |}.

(** Verification of a token under a secret, as the [express-jwt]
    middleware does it.  Its option for the audience is spelled [audience];
    the router passes [aud], so no audience is compared.  The time claims
    [exp] and [nbf], which [authorize] never sets, are not modelled. *)
Definition verify (t : Token) (secret : Buffer) : Completion (list (string * json)) :=
  if decide (signed_with t = secret) then Return (payload t)
  else Throw (UnauthorizedError "invalid signature").

End JWT.

(* ===================================================================== *)
(** ** HTTP requests, responses and middleware effects *)
(* ===================================================================== *)

Module Express.
Import JS Node JWT.

(** A request as the handlers see it: [req.method], the segments of
    [req.path], [req.body] as [bodyParser.json()] left it, and the bearer
    token of the [Authorization] header, if there is one. *)
Record Request : Type := {
  method : string;
  path : list string;
  body : json;
  bearer : option Token
}.

(** What a handler wrote: [res.json(v)] with a document or with a token,
    or [res.send(text)]. *)
Inductive Body : Type :=
| Json (v : json)
| JsonToken (t : Token)
| Text (s : string).

(** A response; the status is 200 unless [res.status] set it. *)
Record Response : Type := {
  status : nat;
  body_of : Body
}.

(** What one middleware did with a request: the response it sent, if any,
    and whether it called [next()]. *)
Record Effect : Type := {
  sent : option Response;
  calls_next : bool
}.

(** What the router did with a request: the response sent, and whether
    the request left the router for the handlers mounted after it (with
    the error given to [next], if any). *)
Record Outcome : Type := {
  response : option Response;
  downstream : bool;
  error : option Error
}.

Definition respond (r : Response) : Outcome :=
  {| response := Some r; downstream := false; error := None |}.

Definition pass_on (r : option Response) (e : option Error) : Outcome :=
  {| response := r; downstream := true; error := e |}.

End Express.

(* ===================================================================== *)
(** ** src/credentials.js *)
(* ===================================================================== *)

Module Credentials.
Import JS RegExp JSONSchema Express.

Definition UPPER : list class_atom := [Range "A" "Z"].
Definition LOWER : list class_atom := [Range "a" "z"].
Definition DIGIT : list class_atom := [Range "0" "9"].

(** The last class of [PASSWORD_REGEX], item by item as it is written in
    the source; [)-_] is a range there. *)
Definition SPECIAL : list class_atom :=
  [ Chr "~"; Chr "`"; Chr "!"; Chr "@"; Chr "#"; Chr "$"; Chr "%"; Chr "^";
    Chr "&"; Chr "*"; Chr "("; Range ")" "_"; Chr "+"; Chr "="; Chr "{";
    Chr "}"; Chr "["; Chr "]"; Chr "|"; Chr ";"; Chr ":"; Chr dquote;
    Chr "<"; Chr ">"; Chr ","; Chr "."; Chr "/"; Chr "?" ]%char.

(** [PASSWORD_REGEX]: four lookaheads at the start of the input, then
    [.{8,}$]. *)
Definition PASSWORD_REGEX (s : string) : bool :=
  lookahead UPPER s && lookahead LOWER s && lookahead DIGIT s &&
  lookahead SPECIAL s && dots_at_least 8 s.

(** The pattern of [username]: [^[a-z0-9_]+$]. *)
Definition USERNAME_CLASS : list class_atom :=
  [ Range "a" "z"; Range "0" "9"; Chr "_" ]%char.

Definition USERNAME_PATTERN (s : string) : bool :=
  plus_class USERNAME_CLASS s.

Definition schema : Schema := {|
  properties := [ ("username", USERNAME_PATTERN); ("password", PASSWORD_REGEX) ];
  required := [ "username"; "password" ]
|}.

(** [validate(credentials)]: [None] when the call returns, [Some e] when it
    throws the validation error [e]. *)
Definition validate (credentials : json) : option ValidationError :=
  JSONSchema.validate credentials schema.

Definition PASSWORD_MESSAGE : string :=
  "Password should be at least 8 chars long and include a capital letter, a small letter, a digit and a special char.".

Definition USERNAME_MESSAGE : string :=
  "Username should only include small letters, digits and underscores.".

Definition GENERIC_MESSAGE : string :=
  "An error ecured while validating the provided credentials. Make sure the is at least 8 chars long and includes a capital letter, a small letter, a digit and a special char, and the username only includes small letters, digits and underscores.".

Definition reject (msg : string) : Effect :=
  {| sent := Some {| status := 400; body_of := Json (JString msg) |};
     calls_next := false |}.

(** [middleware(req, res, next)] on [req.body]. *)
Definition middleware (body : json) : Effect :=
  match validate body with
  | None => {| sent := None; calls_next := true |}
  | Some err =>
      if String.eqb (property err) "instance.password" then reject PASSWORD_MESSAGE
      else if String.eqb (property err) "instance.username" then reject USERNAME_MESSAGE
      else reject GENERIC_MESSAGE
  end.

End Credentials.

(* ===================================================================== *)
(** ** src/index.js *)
(* ===================================================================== *)

Module Users.
Import JS Node JWT Express.

(** The storage collaborator: its name and its two operations, each a
    promise over the collaborator's own state. *)
Record Collection (Store : Type) : Type := {
  collectionName : string;
  insertOne : json -> Store -> Settled json * Store;
  findOne : json -> Store -> Settled (option json) * Store
}.
Arguments collectionName {Store} c.
Arguments insertOne {Store} c.
Arguments findOne {Store} c.

(** Everything a request can read or change: the collaborator's state,
    the file system holding the secrets, the random source and the
    clock (seconds). *)
Record World (Store : Type) : Type := {
  store : Store;
  fs : FS;
  entropy : Entropy;
  clock : N
}.
Arguments store {Store} w.
Arguments fs {Store} w.
Arguments entropy {Store} w.
Arguments clock {Store} w.

Definition set_store {Store : Type} (st : Store) (w : World Store) : World Store :=
  {| store := st; fs := fs w; entropy := entropy w; clock := clock w |}.

Definition set_fs {Store : Type} (f : FS) (w : World Store) : World Store :=
  {| store := store w; fs := f; entropy := entropy w; clock := clock w |}.

Definition set_entropy {Store : Type} (e : Entropy) (w : World Store) : World Store :=
  {| store := store w; fs := fs w; entropy := e; clock := clock w |}.

(** [getRandomBytesFrom(secretPath)]: the value returned or the error
    thrown, and the world left behind. *)
Definition getRandomBytesFrom {Store : Type} (secretPath : Path) (w : World Store)
    : Completion Buffer * World Store :=
  match mkdirp_sync (dirname secretPath) (fs w) with
  | (Some err, fs1) => (Throw err, set_fs fs1 w)
  | (None, fs1) =>
      match readFileSync secretPath fs1 with
      | Return data => (Return data, set_fs fs1 w)
      | Throw _ =>
          let (secret, rest) := randomBytes 256 (entropy w) in
          match writeFileSync secretPath secret fs1 with
          | Return fs2 => (Return secret, set_entropy rest (set_fs fs2 w))
          | Throw err => (Throw err, set_entropy rest (set_fs fs1 w))
          end
      end
  end.

(** [!v]. *)
Definition falsy (v : option json) : bool :=
  match v with
  | None | Some JNull | Some (JBool false) => true
  | Some (JNumber text) => String.eqb text "0"
  | Some (JString s) => match s with EmptyString => true | _ => false end
  | _ => false
  end.

Section Router.

Context {Store : Type}.
Variable collection : Collection Store.
Variable secretsDir : Path.

(** [path.join(secretsDir, collection.collectionName)]. *)
Definition secretPath : Path := join secretsDir (collectionName collection).

(** [register(credentials)]. *)
Definition register (credentials : json) (w : World Store)
    : Settled json * World Store :=
  let (result, st) := insertOne collection credentials (store w) in
  (result, set_store st w).

Definition NO_USER (credentials : json) : Error :=
  {| name := "Error";
     message := "No user was found for the credentials: " +:+ stringify credentials |}.

(** [authorize(credentials)]. *)
Definition authorize (credentials : json) (w : World Store)
    : Settled Token * World Store :=
  match findOne collection credentials (store w) with
  | (Rejected err, st) => (Rejected err, set_store st w)
  | (Resolved user, st) =>
      if falsy user then (Rejected (NO_USER credentials), set_store st w)
      else
        match getRandomBytesFrom secretPath (set_store st w) with
        | (Throw err, w') => (Rejected err, w')
        | (Return secret, w') =>
            (Resolved
               (sign [ ("aud", Some (JString (collectionName collection)));
                       ("sub", prop "username" credentials);
                       ("context", Some (JObject [("user", credentials)])) ]
                     secret (clock w')),
             w')
        end
  end.

(** The router: the routes on [/] and [/authorize] are there from the
    start; the guard on [/:user] is attached once the collection has
    resolved, and holds the secret read at that moment. *)
Record Router : Type := {
  guard : option Buffer
}.

(** The router that [Users] returns, before the collection has resolved. *)
Definition Users : Router := {| guard := None |}.

(** The callback of [Promise.resolve(collectionPromise).then]: if
    [getRandomBytesFrom] throws, nothing is attached. *)
Definition attach (w : World Store) : Router * World Store :=
  match getRandomBytesFrom secretPath w with
  | (Return secret, w') => ({| guard := Some secret |}, w')
  | (Throw _, w') => ({| guard := None |}, w')
  end.

(** The handler of [router.post('/')], after [Credentials.middleware]. *)
Definition post_root (req : Request) (w : World Store) : Outcome * World Store :=
  match register (body req) w with
  | (Resolved result, w') => (respond {| status := 200; body_of := Json result |}, w')
  | (Rejected err, w') =>
      (respond {| status := 400; body_of := Json (JString (message err)) |}, w')
  end.

(** The handler of [router.post('/authorize')], after
    [Credentials.middleware]. *)
Definition post_authorize (req : Request) (w : World Store) : Outcome * World Store :=
  match authorize (body req) w with
  | (Resolved token, w') => (respond {| status := 200; body_of := JsonToken token |}, w')
  | (Rejected err, w') =>
      (respond {| status := 403; body_of := Json (JString (message err)) |}, w')
  end.

(** The handler of [router.all('/authorize')]. *)
Definition all_authorize (req : Request) : Outcome :=
  respond {| status := 400;
             body_of := Json (JString ("Cannot " +:+ method req +:+ " /authorize, use POST instead")) |}.

(** A route [router.post(path, Credentials.middleware, handler)]. *)
Definition guarded (handler : Request -> World Store -> Outcome * World Store)
    (req : Request) (w : World Store) : Outcome * World Store :=
  let eff := Credentials.middleware (body req) in
  if calls_next eff then handler req w
  else ({| response := sent eff; downstream := false; error := None |}, w).

(** [ExpressJWT({ secret, aud }).unless('/authorize')]: the decoded
    payload for [req.user], or the error given to [next].  [unless] reads
    the fields of an options object ([path], [method], [ext], [custom]); on
    the string it is given here it finds none, so no request is exempted. *)
Definition expressJWT (secret : Buffer) (req : Request)
    : Completion (list (string * json)) :=
  match bearer req with
  | None => Throw (UnauthorizedError "No authorization token was found")
  | Some t => verify t secret
  end.

(** The error handler after [ExpressJWT]. *)
Definition on_error (err : Error) : Outcome :=
  if String.eqb (name err) "UnauthorizedError"
  then respond {| status := 401; body_of := Text (message err) |}
  else pass_on None (Some err).

(** The last middleware of the guard, on [req.params.user] and
    [req.user]. *)
Definition subject_check (user : string) (claims : list (string * json)) : Effect :=
  {| sent :=
       if negb (strict_eq_string user (get "sub" claims))
       then Some {| status := 401;
                    body_of := Json (JString (template (get "sub" claims)
                                              +:+ " has no permission for this resource")) |}
       else None;
     calls_next := true |}.

(** The stack mounted on [/:user]. *)
Definition guard_stack (secret : Buffer) (user : string) (req : Request) : Outcome :=
  match expressJWT secret req with
  | Throw err => on_error err
  | Return claims =>
      let eff := subject_check user claims in
      {| response := sent eff; downstream := calls_next eff; error := None |}
  end.

Definition is_post (req : Request) : bool := String.eqb (method req) "POST".

(** Dispatch of one request through the layers of the router, in the
    order they were added. *)
Definition handle (r : Router) (req : Request) (w : World Store)
    : Outcome * World Store :=
  if decide (path req = []) then
    if is_post req then guarded post_root req w
    else (pass_on None None, w)
  else if decide (path req = ["authorize"]) then
    if is_post req then guarded post_authorize req w
    else (all_authorize req, w)
  else
    match path req, guard r with
    | user :: _, Some secret => (guard_stack secret user req, w)
    | _, _ => (pass_on None None, w)
    end.

End Router.

End Users.

(* ===================================================================== *)
(** ** The password policy in words, sequences of calls, sample data *)
(* ===================================================================== *)

Module Policy.
Import JS RegExp Credentials.

(** The characters written between the brackets of a class, each taken by
    itself: [lo-hi] contributes [lo], the hyphen and [hi]. *)
Definition written (cls : list class_atom) : list ascii :=
  flat_map (fun a => match a with
                     | Chr c => [c]
                     | Range lo hi => [lo; "-"%char; hi]
                     end) cls.

(** The special characters: those written in the last class of
    [PASSWORD_REGEX]. *)
Definition special (c : ascii) : bool :=
  existsb (Ascii.eqb c) (written SPECIAL).

(** The password rule as the messages of [middleware] word it: at least 8
    characters, a capital letter, a small letter, a digit and a special
    character. *)
Definition PASSWORD_POLICY (s : string) : bool :=
  (8 <=? String.length s) &&
  some_char (in_class UPPER) s && some_char (in_class LOWER) s &&
  some_char (in_class DIGIT) s && some_char special s.

(** The shape of a candidate: a property is missing, or present with a
    value that is not a string. *)
Definition missing (k : string) (fields : list (string * json)) : bool :=
  match get k fields with None => true | Some _ => false end.

Definition wrong_type (k : string) (fields : list (string * json)) : bool :=
  match get k fields with
  | None | Some (JString _) => false
  | Some _ => true
  end.

(** A candidate with a missing field or a field of the wrong type. *)
Definition shape_violation (fields : list (string * json)) : bool :=
  missing "username" fields || missing "password" fields ||
  wrong_type "username" fields || wrong_type "password" fields.

(** A property that is absent, or a string that matches its pattern. *)
Definition absent_or_conforms (pattern : string -> bool) (v : option json) : bool :=
  match v with
  | None => true
  | Some (JString s) => pattern s
  | Some _ => false
  end.

End Policy.

Module Sequence.
Import Node Users.

(** [n] calls of [getRandomBytesFrom(secretPath)] one after the other:
    what each returned, and the world after the last. *)
Fixpoint calls {Store : Type} (n : nat) (secretPath : Path) (w : World Store)
    : list (Completion Buffer) * World Store :=
  match n with
  | 0 => ([], w)
  | S k =>
      let (r, w1) := getRandomBytesFrom secretPath w in
      let (rs, w2) := calls k secretPath w1 in
      (r :: rs, w2)
  end.

End Sequence.

Module Sample.
Import JS Node JWT Express Users.

(** A collection kept in memory: the documents inserted so far; a query
    finds the first document that prints like it. *)
Definition memory : Collection (list json) := {|
  collectionName := "users";
  insertOne := fun doc st =>
    (Resolved (JObject [("insertedCount", JNumber "1")]), st ++ [doc]);
  findOne := fun query st =>
    (Resolved (find (fun doc => String.eqb (stringify doc) (stringify query)) st), st)
|}.

Definition secrets : Path := ["var"; "secrets"].

Definition alice : json :=
  JObject [("username", JString "alice_1"); ("password", JString "Abcdef1!")].

Definition bob : json :=
  JObject [("username", JString "bob_2"); ("password", JString "Qwerty7?")].

(** An empty disk and an empty collection. *)
Definition empty : World (list json) :=
  {| store := []; fs := ∅; entropy := fun _ => Byte.x2a; clock := 1700000000%N |}.

(** [alice] and [bob] are registered. *)
Definition registered : World (list json) :=
  {| store := [alice; bob]; fs := ∅; entropy := fun _ => Byte.x2a; clock := 1700000000%N |}.

Definition post (p : list string) (b : json) : Request :=
  {| method := "POST"; path := p; body := b; bearer := None |}.

(** The router once the collection has resolved on the world
    [registered], and that world afterwards. *)
Definition router : Router := fst (attach memory secrets registered).

Definition ready : World (list json) := snd (attach memory secrets registered).



End Sample.

Module Scenario.
Import JS Node JWT Express Users.

(** A collection with a unique index on [username]: a second document
    with a username already stored is refused. *)
Definition DUPLICATE : Error :=
  {| name := "MongoError";
     message := "E11000 duplicate key error collection: users index: username_1" |}.

Definition same_username (a b : json) : bool :=
  match prop "username" a, prop "username" b with
  | Some x, Some y => String.eqb (stringify x) (stringify y)
  | _, _ => false
  end.

Definition unique : Collection (list json) := {|
  collectionName := "users";
  insertOne := fun doc st =>
    if existsb (same_username doc) st then (Rejected DUPLICATE, st)
    else (Resolved (JObject [("insertedCount", JNumber "1")]), st ++ [doc]);
  findOne := findOne Sample.memory
|}.

(** A collection whose server cannot be reached. *)
Definition UNREACHABLE : Error :=
  {| name := "MongoNetworkError"; message := "failed to connect to server" |}.

Definition offline : Collection (list json) := {|
  collectionName := "users";
  insertOne := fun _ st => (Rejected UNREACHABLE, st);
  findOne := fun _ st => (Rejected UNREACHABLE, st)
|}.

(** A second namespace on the same store. *)
Definition admins : Collection (list json) := {|
  collectionName := "admins";
  insertOne := insertOne Sample.memory;
  findOne := findOne Sample.memory
|}.

(** A disk on which [var] is a file, so that [var/secrets] cannot be
    made. *)
Definition blocked : World (list json) :=
  {| store := [Sample.alice; Sample.bob];
     fs := {[ ["var"] := File [Byte.x00] ]};
     entropy := fun _ => Byte.x2a; clock := 1700000000%N |}.

(** A disk that already holds a three byte secret for [users]. *)
Definition provisioned : World (list json) :=
  {| store := [Sample.alice; Sample.bob];
     fs := <[ ["var"; "secrets"; "users"] := File [Byte.x01; Byte.x02; Byte.x03] ]>
             (<[ ["var"; "secrets"] := Dir ]> {[ ["var"] := Dir ]});
     entropy := fun _ => Byte.x2a; clock := 1700000000%N |}.

(** A password that meets the worded policy but holds a line feed. *)
Definition two_lines : string := "Abcdef1!" +:+ String LF "x".

(** A token for [bob_2] signed with a key of the caller's own. *)
Definition forged : Token :=
  {| payload := [("aud", JString "users"); ("sub", JString "bob_2")];
     signed_with := [Byte.x00] |}.

End Scenario.

(* ===================================================================== *)
(** * Properties *)
(* ===================================================================== *)

Import JS RegExp JSONSchema Node JWT Express Users.

(** ** The credential patterns *)

Section Patterns.

Lemma lookahead_some_char cls s :
  lookahead cls s = true -> some_char (in_class cls) s = true.
Proof.
  induction s as [|c rest IH]; simpl; [easy|].
  intros H. apply orb_true_iff in H as [H|H].
  - now rewrite H.
  - apply andb_true_iff in H as [_ H]. rewrite (IH H). apply orb_true_r.
Qed.

Lemma lookahead_on_dots cls s :
  all_chars dot s = true -> lookahead cls s = some_char (in_class cls) s.
Proof.
  induction s as [|c rest IH]; simpl; [easy|].
  intros H. apply andb_true_iff in H as [Hc Hrest].
  now rewrite Hc, (IH Hrest).
Qed.

(** Every capital letter lies in the range [)-_] of the last class. *)
Lemma upper_in_SPECIAL c :
  in_class Credentials.UPPER c = true -> in_class Credentials.SPECIAL c = true.
Proof.
  destruct c as [[] [] [] [] [] [] [] []]; vm_compute; intros H;
    first [reflexivity | discriminate H].
Qed.

Lemma some_upper_some_SPECIAL s :
  some_char (in_class Credentials.UPPER) s = true ->
  some_char (in_class Credentials.SPECIAL) s = true.
Proof.
  induction s as [|c rest IH]; cbn [some_char]; [easy|].
  intros H. apply orb_true_iff in H as [H|H].
  - now rewrite (upper_in_SPECIAL _ H).
  - rewrite (IH H). apply orb_true_r.
Qed.

(** What [PASSWORD_REGEX] accepts: at least 8 characters, none of them a
    line terminator, among them a capital letter, a small letter and a
    digit.  The fourth lookahead adds nothing. *)
Lemma PASSWORD_REGEX_accepts s :
  Credentials.PASSWORD_REGEX s = true <->
  8 <= String.length s /\ all_chars dot s = true /\
  some_char (in_class Credentials.UPPER) s = true /\
  some_char (in_class Credentials.LOWER) s = true /\
  some_char (in_class Credentials.DIGIT) s = true.
Proof.
  unfold Credentials.PASSWORD_REGEX, dots_at_least. split.
  - intros H.
    apply andb_true_iff in H as [H Hdots].
    apply andb_true_iff in Hdots as [Hlen Hdots].
    apply andb_true_iff in H as [H _].
    apply andb_true_iff in H as [H Hd].
    apply andb_true_iff in H as [Hu Hl].
    apply Nat.leb_le in Hlen.
    auto 10 using lookahead_some_char.
  - intros (Hlen & Hdots & Hu & Hl & Hd).
    rewrite !(lookahead_on_dots _ _ Hdots), Hu, Hl, Hd, Hdots.
    rewrite (some_upper_some_SPECIAL _ Hu).
    apply Nat.leb_le in Hlen. now rewrite Hlen.
Qed.

End Patterns.

(** ** [validate] and [middleware] on objects *)

Section Validation.

Variable fields : list (string * json).

(** [validate] on an object, by cases on its two properties. *)
Lemma validate_object :
  Credentials.validate (JObject fields) =
  match validate_property "username" Credentials.USERNAME_PATTERN (get "username" fields) with
  | Some err => Some err
  | None =>
      match validate_property "password" Credentials.PASSWORD_REGEX (get "password" fields) with
      | Some err => Some err
      | None =>
          match get "username" fields, get "password" fields with
          | Some _, Some _ => None
          | _, _ => Some {| JSONSchema.property := "instance";
                            JSONSchema.name := "required" |}
          end
      end
  end.
Proof.
  unfold Credentials.validate, validate, Credentials.schema. simpl.
  destruct (validate_property "username" _ _); [reflexivity|].
  destruct (validate_property "password" _ _); [reflexivity|].
  destruct (get "username" fields); [|reflexivity].
  destruct (get "password" fields); reflexivity.
Qed.

(** An accepted object carries two strings that match their patterns. *)
Lemma validate_accepts_inv :
  Credentials.validate (JObject fields) = None ->
  exists u p,
    get "username" fields = Some (JString u) /\ Credentials.USERNAME_PATTERN u = true /\
    get "password" fields = Some (JString p) /\ Credentials.PASSWORD_REGEX p = true.
Proof.
  rewrite validate_object. unfold validate_property.
  destruct (get "username" fields) as [[| | |u| |]|]; try discriminate.
  - destruct (Credentials.USERNAME_PATTERN u) eqn:Hu; try discriminate.
    destruct (get "password" fields) as [[| | |p| |]|]; try discriminate.
    destruct (Credentials.PASSWORD_REGEX p) eqn:Hp; try discriminate.
    intros _. now exists u, p.
  - destruct (get "password" fields) as [[| | |p| |]|]; try discriminate.
    destruct (Credentials.PASSWORD_REGEX p); discriminate.
Qed.

Lemma validate_accepts u p :
  get "username" fields = Some (JString u) -> Credentials.USERNAME_PATTERN u = true ->
  get "password" fields = Some (JString p) -> Credentials.PASSWORD_REGEX p = true ->
  Credentials.validate (JObject fields) = None.
Proof.
  intros Hu Hup Hp Hpp. rewrite validate_object, Hu, Hp. simpl.
  now rewrite Hup, Hpp.
Qed.

(** With a conforming username and a password that is present, the
    verdict is that of [PASSWORD_REGEX], and a rejection is tagged with the
    password. *)
Lemma password_verdict u v :
  get "username" fields = Some (JString u) -> Credentials.USERNAME_PATTERN u = true ->
  get "password" fields = Some v ->
  (Credentials.validate (JObject fields) = None <->
   exists p, v = JString p /\ Credentials.PASSWORD_REGEX p = true) /\
  (forall err, Credentials.validate (JObject fields) = Some err ->
               JSONSchema.property err = "instance.password").
Proof.
  intros Hu Hup Hv. rewrite validate_object, Hu, Hv. cbn [validate_property].
  rewrite Hup. split.
  - split.
    + destruct v as [| | |p| |]; try discriminate.
      destruct (Credentials.PASSWORD_REGEX p) eqn:Hp; [eauto|discriminate].
    + intros (p & -> & Hp). now rewrite Hp.
  - intros err. destruct v as [| | |p| |]; try (now intros [= <-]).
    destruct (Credentials.PASSWORD_REGEX p); [discriminate|now intros [= <-]].
Qed.

End Validation.

(** C1.  The claim: with a conforming username, [validate] accepts exactly
    the passwords of length at least 8 with an uppercase letter, a
    lowercase letter, a digit and a special character.  On the code it
    fails: the object with username [alice_1] and password [Abcdefg1] is
    accepted, [middleware] lets it through, and the password has no special
    character (so the policy in words rejects it). *)
Theorem validate_accepts_password_without_special :
  Credentials.validate
    (JObject [("username", JString "alice_1"); ("password", JString "Abcdefg1")]) = None /\
  calls_next (Credentials.middleware
    (JObject [("username", JString "alice_1"); ("password", JString "Abcdefg1")])) = true /\
  some_char Policy.special "Abcdefg1" = false /\
  Policy.PASSWORD_POLICY "Abcdefg1" = false.
Proof. repeat split; vm_compute; reflexivity. Qed.

(** ** Which message a rejected object gets *)

Ltac by_cases_on_fields fields :=
  unfold Credentials.middleware; rewrite (validate_object fields);
  unfold Policy.missing, Policy.wrong_type, Policy.absent_or_conforms, validate_property;
  destruct (get "username" fields) as [[| | |?u| |]|];
  try destruct (Credentials.USERNAME_PATTERN u);
  destruct (get "password" fields) as [[| | |?p| |]|];
  try destruct (Credentials.PASSWORD_REGEX p).

(** The claim of C5 as it is stated fails: a number for the username (the
    password being fine) is a field of the wrong type, and it gets the
    message about usernames, not the generic one. *)
Lemma wrong_type_not_generic :
  Policy.shape_violation [("username", JNumber "5"); ("password", JString "Abcdef1!")] = true /\
  Credentials.middleware (JObject [("username", JNumber "5"); ("password", JString "Abcdef1!")])
    = Credentials.reject Credentials.USERNAME_MESSAGE /\
  ~ (forall fields : list (string * json),
       Policy.shape_violation fields = true ->
       Credentials.middleware (JObject fields) =
       Credentials.reject Credentials.GENERIC_MESSAGE).
Proof.
  split; [reflexivity|]. split; [vm_compute; reflexivity|].
  intros claim.
  specialize (claim [("username", JNumber "5"); ("password", JString "Abcdef1!")] eq_refl).
  vm_compute in claim. discriminate claim.
Qed.

(** C5, amended.  For every candidate object: (1) if a field is missing
    and each field present is a conforming string, the generic message is
    sent; (2) the generic message is sent in no other case; (3) a username
    that is not a string gets the message about usernames; (4) a password
    that is not a string gets the message about passwords, provided the
    username (checked first) is absent or conforms. *)
Theorem shape_errors (fields : list (string * json)) :
  ((Policy.missing "username" fields = true \/ Policy.missing "password" fields = true) ->
   Policy.absent_or_conforms Credentials.USERNAME_PATTERN (get "username" fields) = true ->
   Policy.absent_or_conforms Credentials.PASSWORD_REGEX (get "password" fields) = true ->
   Credentials.middleware (JObject fields) = Credentials.reject Credentials.GENERIC_MESSAGE) /\
  (Credentials.middleware (JObject fields) = Credentials.reject Credentials.GENERIC_MESSAGE ->
   (Policy.missing "username" fields = true \/ Policy.missing "password" fields = true) /\
   Policy.absent_or_conforms Credentials.USERNAME_PATTERN (get "username" fields) = true /\
   Policy.absent_or_conforms Credentials.PASSWORD_REGEX (get "password" fields) = true) /\
  (Policy.wrong_type "username" fields = true ->
   Credentials.middleware (JObject fields) = Credentials.reject Credentials.USERNAME_MESSAGE) /\
  (Policy.absent_or_conforms Credentials.USERNAME_PATTERN (get "username" fields) = true ->
   Policy.wrong_type "password" fields = true ->
   Credentials.middleware (JObject fields) = Credentials.reject Credentials.PASSWORD_MESSAGE).
Proof.
  by_cases_on_fields fields; cbn;
    (split; [|split; [|split]]); intros; try reflexivity; try discriminate;
    try (repeat split; solve [auto | discriminate]);
    match goal with
    | H : _ \/ _ |- _ => destruct H; discriminate
    | H : Credentials.reject _ = Credentials.reject _ |- _ =>
        vm_compute in H; discriminate H
    end.
Qed.

Lemma shape_errors_witness :
  Credentials.middleware (JObject [("password", JString "Abcdef1!")]) =
    Credentials.reject Credentials.GENERIC_MESSAGE /\
  Credentials.middleware (JObject [("username", JNull); ("password", JString "Abcdef1!")]) =
    Credentials.reject Credentials.USERNAME_MESSAGE /\
  Credentials.middleware (JObject [("password", JBool true)]) =
    Credentials.reject Credentials.PASSWORD_MESSAGE.
Proof.
  split; [|split].
  - apply (proj1 (shape_errors [("password", JString "Abcdef1!")]));
      [left|..]; reflexivity.
  - apply (proj1 (proj2 (proj2 (shape_errors
      [("username", JNull); ("password", JString "Abcdef1!")])))); reflexivity.
  - apply (proj2 (proj2 (proj2 (shape_errors [("password", JBool true)]))));
      reflexivity.
Defined.

(** ** The file system and the secret of a namespace *)

Section FileSystem.

Implicit Types (fs : gmap (list string) node) (base rest p : list string).

(** [mkdirp] never changes or removes an entry that is there. *)
Lemma mkdirp_from_preserves rest : forall base fs r fs' q n,
  mkdirp_from base rest fs = (r, fs') -> fs !! q = Some n -> fs' !! q = Some n.
Proof.
  induction rest as [|seg rest IH]; intros base fs r fs' q n; cbn [mkdirp_from].
  - now intros [= _ <-].
  - destruct (fs !! _) as [[data|]|] eqn:Hp.
    + now intros [= _ <-].
    + apply IH.
    + intros Hrun Hq. apply (IH _ _ _ _ q n Hrun).
      rewrite lookup_insert_ne; [exact Hq|]. intros Heq. subst q. congruence.
Qed.

(** After a successful [mkdirp], every directory on the way is there. *)
Lemma mkdirp_from_dirs rest : forall base fs fs',
  mkdirp_from base rest fs = (None, fs') ->
  forall k, 1 <= k <= length rest -> fs' !! (base ++ take k rest) = Some Dir.
Proof.
  induction rest as [|seg rest IH]; intros base fs fs'; cbn [mkdirp_from length].
  - intros _ k Hk. lia.
  - intros Hrun k Hk.
    assert (Hhere : fs' !! (base ++ [seg]) = Some Dir).
    { destruct (fs !! _) as [[data|]|] eqn:Hp; [discriminate Hrun| |].
      - eapply mkdirp_from_preserves; eauto.
      - eapply mkdirp_from_preserves; [exact Hrun|]. apply lookup_insert_eq. }
    destruct k as [|[|k]]; [lia| |].
    + exact Hhere.
    + rewrite firstn_cons, cons_middle, app_assoc.
      destruct (fs !! _) as [[data|]|]; [discriminate Hrun| |];
        apply (IH _ _ _ Hrun); lia.
Qed.

(** Where every directory on the way is there, [mkdirp] does nothing. *)
Lemma mkdirp_from_noop rest : forall base fs,
  (forall k, 1 <= k <= length rest -> fs !! (base ++ take k rest) = Some Dir) ->
  mkdirp_from base rest fs = (None, fs).
Proof.
  induction rest as [|seg rest IH]; intros base fs Hdirs; cbn [mkdirp_from]; [reflexivity|].
  pose proof (Hdirs 1 ltac:(cbn; lia)) as Hhere.
  change (take 1 (seg :: rest)) with [seg] in Hhere.
  rewrite Hhere. apply IH.
  intros k Hk. rewrite <- app_assoc. apply (Hdirs (S k)). cbn. lia.
Qed.

(** [mkdirp] touches nothing but the directories on the way. *)
Lemma mkdirp_from_elsewhere rest : forall base fs r fs' q,
  mkdirp_from base rest fs = (r, fs') ->
  (forall k, 1 <= k <= length rest -> q <> base ++ take k rest) ->
  fs' !! q = fs !! q.
Proof.
  induction rest as [|seg rest IH]; intros base fs r fs' q; cbn [mkdirp_from length].
  - now intros [= _ <-].
  - intros Hrun Hq.
    assert (Hhere : q <> base ++ [seg]) by (apply (Hq 1); lia).
    assert (Hbelow : forall k, 1 <= k <= length rest -> q <> (base ++ [seg]) ++ take k rest).
    { intros k Hk. rewrite <- app_assoc. apply (Hq (S k)). lia. }
    destruct (fs !! _) as [[data|]|] eqn:Hp.
    + now injection Hrun as _ <-.
    + exact (IH _ _ _ _ _ Hrun Hbelow).
    + rewrite (IH _ _ _ _ _ Hrun Hbelow). now apply lookup_insert_ne.
Qed.

(** [mkdirp] succeeds when no file lies on the way. *)
Lemma mkdirp_from_succeeds rest : forall base fs,
  (forall k data, 1 <= k <= length rest -> fs !! (base ++ take k rest) <> Some (File data)) ->
  exists fs', mkdirp_from base rest fs = (None, fs').
Proof.
  induction rest as [|seg rest IH]; intros base fs Hfree; cbn [mkdirp_from length] in *.
  - eauto.
  - assert (Hbelow : forall fs0, (forall q, q <> base ++ [seg] -> fs0 !! q = fs !! q) ->
              forall k data, 1 <= k <= length rest ->
              fs0 !! ((base ++ [seg]) ++ take k rest) <> Some (File data)).
    { intros fs0 Hsame k data Hk. rewrite Hsame.
      - rewrite <- app_assoc. apply (Hfree (S k)). lia.
      - intros Heq. apply (f_equal (@length string)) in Heq.
        rewrite !length_app, length_take in Heq. cbn [length] in Heq. lia. }
    destruct (fs !! (base ++ [seg])) as [[data|]|] eqn:Hp.
    + exfalso. apply (Hfree 1 data); [lia|exact Hp].
    + apply IH. now apply Hbelow.
    + apply IH, Hbelow. intros q Hq. now apply lookup_insert_ne.
Qed.

Lemma mkdirp_sync_again dir fs fs' :
  mkdirp_sync dir fs = (None, fs') -> mkdirp_sync dir fs' = (None, fs').
Proof.
  intros Hrun. apply mkdirp_from_noop. now apply (mkdirp_from_dirs _ _ _ _ Hrun).
Qed.

(** Writing the file [p] leaves the directories above it alone. *)
Lemma mkdirp_sync_after_write p data fs fs' :
  p <> [] -> mkdirp_sync (dirname p) fs = (None, fs') ->
  mkdirp_sync (dirname p) (<[p := File data]> fs') = (None, <[p := File data]> fs').
Proof.
  intros Hp Hrun. apply mkdirp_from_noop. intros k Hk.
  rewrite lookup_insert_ne.
  - now apply (mkdirp_from_dirs _ _ _ _ Hrun).
  - intros Heq. apply (f_equal (@length string)) in Heq.
    cbn [app] in Heq. rewrite length_take in Heq.
    unfold dirname in *. rewrite removelast_firstn_len, length_take in *.
    destruct p; [congruence|]. cbn [length] in *. lia.
Qed.

Lemma readFileSync_inv p fs data :
  readFileSync p fs = Return data -> fs !! p = Some (File data).
Proof.
  unfold readFileSync. destruct p; [discriminate|].
  destruct (fs !! _) as [[d|]|]; try discriminate. now intros [= ->].
Qed.

Lemma writeFileSync_inv p data fs fs' :
  writeFileSync p data fs = Return fs' -> p <> [] /\ fs' = <[p := File data]> fs.
Proof.
  unfold writeFileSync. destruct p as [|seg p]; [discriminate|].
  destruct (fs !! _) as [[d|]|]; try discriminate;
    destruct (is_dir _ _); try discriminate; now intros [= <-].
Qed.

Lemma readFileSync_written p data fs :
  p <> [] -> readFileSync p (<[p := File data]> fs) = Return data.
Proof.
  intros Hp. unfold readFileSync. destruct p; [congruence|].
  now rewrite lookup_insert_eq.
Qed.

End FileSystem.

Section Provisioner.

Context {Store : Type}.
Implicit Types (w : World Store) (p : list string).

(** A call that returned a secret left a world in which the next call
    returns the same secret and changes nothing. *)
Lemma getRandomBytesFrom_again p w secret w' :
  getRandomBytesFrom p w = (Return secret, w') ->
  getRandomBytesFrom p w' = (Return secret, w').
Proof.
  unfold getRandomBytesFrom.
  destruct (mkdirp_sync (dirname p) (fs w)) as [[err|] fs1] eqn:Hmk; [discriminate|].
  destruct (readFileSync p fs1) as [data|err] eqn:Hread.
  - intros [= <- <-]. cbn [fs set_fs].
    rewrite (mkdirp_sync_again _ _ _ Hmk), Hread. reflexivity.
  - cbn [randomBytes].
    destruct (writeFileSync p _ fs1) as [fs2|err2] eqn:Hwrite; [|discriminate].
    intros [= <- <-]. cbn [fs set_fs set_entropy].
    apply writeFileSync_inv in Hwrite as [Hp ->].
    rewrite (mkdirp_sync_after_write _ _ _ _ Hp Hmk), (readFileSync_written _ _ _ Hp).
    reflexivity.
Qed.

(** The call returns a secret whenever the path is not the root, no file
    lies where a directory is needed, and no directory lies at the path
    itself. *)
Lemma getRandomBytesFrom_returns p w :
  p <> [] ->
  (forall k data, 1 <= k <= length (dirname p) ->
                  fs w !! take k (dirname p) <> Some (File data)) ->
  fs w !! p <> Some Dir ->
  exists secret w', getRandomBytesFrom p w = (Return secret, w').
Proof.
  intros Hp Hfree Hfile. unfold getRandomBytesFrom.
  destruct (mkdirp_from_succeeds (dirname p) [] (fs w) Hfree) as (fs1 & Hmk).
  unfold mkdirp_sync. rewrite Hmk.
  destruct (readFileSync p fs1) as [data|err] eqn:Hread; [eauto|].
  cbn [randomBytes].
  assert (Hlen : length (dirname p) < length p).
  { unfold dirname. rewrite removelast_firstn_len, length_take.
    destruct p; [congruence|]. cbn [length]. lia. }
  assert (Hsame : fs1 !! p = fs w !! p).
  { apply (mkdirp_from_elsewhere _ _ _ _ _ _ Hmk). intros k Hk Heq.
    apply (f_equal (@length string)) in Heq. cbn [app] in Heq.
    rewrite length_take in Heq. lia. }
  assert (Hparent : is_dir (dirname p) fs1 = true).
  { unfold is_dir. destruct (dirname p) as [|seg d] eqn:Hd; [reflexivity|].
    pose proof (mkdirp_from_dirs _ _ _ _ Hmk (length (seg :: d)) ltac:(cbn; lia)) as Hdir.
    rewrite firstn_all in Hdir. cbn [app] in Hdir. now rewrite Hdir. }
  unfold writeFileSync. destruct p as [|s0 p0]; [congruence|].
  rewrite Hsame, Hparent.
  destruct (fs w !! (s0 :: p0)) as [[data|]|]; [eauto| |eauto]. congruence.
Qed.

Lemma calls_again n : forall p w secret,
  getRandomBytesFrom p w = (Return secret, w) ->
  Sequence.calls n p w = (repeat (Return secret) n, w).
Proof.
  induction n as [|n IH]; intros p w secret Hcall; cbn [Sequence.calls repeat]; [reflexivity|].
  now rewrite Hcall, (IH _ _ _ Hcall).
Qed.

End Provisioner.

(** C2.  For every namespace (collection name) and secrets directory: if
    a call of the provisioner returned a secret, then every later call,
    however many follow one another, returns the same bytes and leaves
    the world, the stored secret included, as it was. *)
Theorem provisioning_idempotent {Store : Type} (collection : Collection Store)
    (secretsDir : list string) (w w' : World Store) (secret : list Byte.byte) :
  getRandomBytesFrom (secretPath collection secretsDir) w = (Return secret, w') ->
  getRandomBytesFrom (secretPath collection secretsDir) w' = (Return secret, w') /\
  forall n, Sequence.calls n (secretPath collection secretsDir) w' =
            (repeat (Return secret) n, w').
Proof.
  intros Hfirst. pose proof (getRandomBytesFrom_again _ _ _ _ Hfirst) as Hsecond.
  split; [exact Hsecond|]. intros n. now apply calls_again.
Qed.

Lemma provisioning_idempotent_witness :
  exists secret w',
    getRandomBytesFrom (secretPath Sample.memory Sample.secrets) Sample.empty
      = (Return secret, w') /\
    length secret = 256 /\
    getRandomBytesFrom (secretPath Sample.memory Sample.secrets) w' = (Return secret, w') /\
    Sequence.calls 3 (secretPath Sample.memory Sample.secrets) w' =
      (repeat (Return secret) 3, w').
Proof.
  eexists _, _. split; [vm_compute; reflexivity|]. split; [reflexivity|].
  pose proof (provisioning_idempotent Sample.memory Sample.secrets Sample.empty _ _
                ltac:(vm_compute; reflexivity)) as [Hsecond Hmany].
  split; [exact Hsecond | exact (Hmany 3)].
Defined.

(** ** Strings: [includes] and [JSON.stringify] *)

Section Strings.

Lemma append_cons c (s t : string) : String c s +:+ t = String c (s +:+ t).
Proof. reflexivity. Qed.

Lemma append_assoc (s t u : string) : (s +:+ t) +:+ u = s +:+ (t +:+ u).
Proof.
  induction s as [|c s IH]; [reflexivity|].
  now rewrite !append_cons, IH.
Qed.

Lemma prefix_append (needle rest : string) : String.prefix needle (needle +:+ rest) = true.
Proof.
  induction needle as [|c needle IH].
  - destruct rest; reflexivity.
  - rewrite append_cons. cbn [String.prefix].
    destruct (Ascii.ascii_dec c c); [exact IH|congruence].
Qed.

Lemma includes_prefix (needle rest : string) : includes needle (needle +:+ rest) = true.
Proof.
  destruct (needle +:+ rest) eqn:E; cbn [includes];
    rewrite <- E, prefix_append; reflexivity.
Qed.

(** A string includes whatever it is built around. *)
Lemma includes_middle (before needle after : string) :
  includes needle (before +:+ needle +:+ after) = true.
Proof.
  induction before as [|c before IH].
  - exact (includes_prefix needle after).
  - rewrite append_cons. cbn [includes]. rewrite IH. apply orb_true_r.
Qed.

Lemma get_In k (fields : list (string * json)) v :
  JS.get k fields = Some v -> In (k, v) fields.
Proof.
  induction fields as [|[k' v'] rest IH]; cbn [JS.get]; [discriminate|].
  destruct (String.eqb_spec k k') as [->|_].
  - intros [= ->]. now left.
  - intros H. right. auto.
Qed.

Lemma join_In sep x (l : list string) :
  In x l -> exists before after, JS.join sep l = before +:+ x +:+ after.
Proof.
  induction l as [|y l IH]; [intros []|].
  intros [->|Hin].
  - destruct l as [|z l].
    + exists EmptyString, EmptyString. cbn [JS.join].
      change (EmptyString +:+ x +:+ EmptyString) with (x +:+ EmptyString).
      clear. induction x as [|c x IHx]; [reflexivity|].
      now rewrite append_cons, <- IHx.
    + exists EmptyString, (sep +:+ JS.join sep (z :: l)). reflexivity.
  - destruct (IH Hin) as (before & after & E).
    destruct l as [|z l]; [destruct Hin|].
    exists (y +:+ sep +:+ before), after.
    change (JS.join sep (y :: z :: l)) with (y +:+ sep +:+ JS.join sep (z :: l)).
    now rewrite E, !append_assoc.
Qed.

(** The text of an object shows each of its properties: the quoted key, a
    colon and the text of the value. *)
Lemma stringify_property k v (fields : list (string * json)) :
  JS.get k fields = Some v ->
  exists before after,
    stringify (JObject fields) = before +:+ (quote k +:+ ":" +:+ stringify v) +:+ after.
Proof.
  intros Hget. apply get_In in Hget.
  cbn [stringify].
  set (render := fun kv : string * json => quote (fst kv) +:+ ":" +:+ stringify (snd kv)).
  destruct (join_In "," (render (k, v)) (map render fields)) as (before & after & E).
  { now apply in_map. }
  exists ("{" +:+ before), (after +:+ "}").
  rewrite E. unfold render at 1. cbn [fst snd].
  now rewrite !append_assoc.
Qed.

End Strings.

(** ** Dispatch *)

Section Dispatch.

Context {Store : Type}.
Variable collection : Collection Store.
Variable secretsDir : list string.
Implicit Types (r : Router) (req : Request) (w : World Store).

Lemma handle_post_root r req w :
  method req = "POST" -> path req = [] ->
  handle collection secretsDir r req w = guarded (post_root collection) req w.
Proof.
  intros Hm Hp. unfold handle, is_post. rewrite Hp, Hm.
  destruct (decide _) as [_|H]; [reflexivity|congruence].
Qed.

Lemma handle_post_authorize r req w :
  method req = "POST" -> path req = ["authorize"] ->
  handle collection secretsDir r req w =
  guarded (post_authorize collection secretsDir) req w.
Proof.
  intros Hm Hp. unfold handle, is_post. rewrite Hp, Hm.
  destruct (decide _) as [H|_]; [discriminate H|].
  destruct (decide _) as [_|H]; [reflexivity|congruence].
Qed.

Lemma handle_all_authorize r req w :
  method req <> "POST" -> path req = ["authorize"] ->
  handle collection secretsDir r req w = (all_authorize req, w).
Proof.
  intros Hm Hp. unfold handle, is_post. rewrite Hp.
  apply String.eqb_neq in Hm. rewrite Hm.
  destruct (decide _) as [H|_]; [discriminate H|].
  destruct (decide _) as [_|H]; [reflexivity|congruence].
Qed.

Lemma handle_guard r req w secret user rest :
  guard r = Some secret -> path req = user :: rest -> path req <> ["authorize"] ->
  handle collection secretsDir r req w = (guard_stack secret user req, w).
Proof.
  intros Hg Hp Hne. unfold handle. rewrite Hp in *. rewrite Hg.
  destruct (decide _) as [H|_]; [discriminate H|].
  destruct (decide _) as [H|_]; [contradiction|reflexivity].
Qed.

Lemma guarded_accepts (handler : Request -> World Store -> Outcome * World Store) req w :
  Credentials.validate (body req) = None ->
  guarded handler req w = handler req w.
Proof.
  intros Hv. unfold guarded, Credentials.middleware. now rewrite Hv.
Qed.

Lemma authorize_no_user credentials w user st :
  findOne collection credentials (store w) = (Resolved user, st) -> falsy user = true ->
  authorize collection secretsDir credentials w =
  (Rejected (NO_USER credentials), set_store st w).
Proof.
  intros Hfind Hfalsy. unfold authorize. now rewrite Hfind, Hfalsy.
Qed.

(** [POST /authorize] with a valid body that matches no user. *)
Lemma handle_no_user r req w user st :
  method req = "POST" -> path req = ["authorize"] ->
  Credentials.validate (body req) = None ->
  findOne collection (body req) (store w) = (Resolved user, st) -> falsy user = true ->
  handle collection secretsDir r req w
    = (respond {| status := 403;
                  body_of := Json (JString (message (NO_USER (body req)))) |},
       set_store st w).
Proof.
  intros Hm Hp Hvalid Hfind Hnone.
  rewrite (handle_post_authorize _ _ _ Hm Hp), (guarded_accepts _ _ _ Hvalid).
  unfold post_authorize. now rewrite (authorize_no_user _ _ _ _ Hfind Hnone).
Qed.

End Dispatch.

(** ** The claims about the router *)

(** C3.  For every valid credentials object with username [u] for which
    the lookup finds a user: [authorize] issues a token whenever the
    secret of the namespace can be read or created, and every token it
    issues verifies under the secret the provisioner returns for that
    namespace, with subject [u] and the collection name as audience. *)
Theorem authorize_token_roundtrip {Store : Type} (collection : Collection Store)
    (secretsDir : list string) (credentials : json) (u : string)
    (user : option json) (st : Store) (w : World Store) :
  Credentials.validate credentials = None ->
  prop "username" credentials = Some (JString u) ->
  findOne collection credentials (store w) = (Resolved user, st) ->
  falsy user = false ->
  (forall secret w1,
     getRandomBytesFrom (secretPath collection secretsDir) (set_store st w)
       = (Return secret, w1) ->
     exists token, authorize collection secretsDir credentials w = (Resolved token, w1)) /\
  (forall token w',
     authorize collection secretsDir credentials w = (Resolved token, w') ->
     exists secret claims,
       getRandomBytesFrom (secretPath collection secretsDir) w' = (Return secret, w') /\
       verify token secret = Return claims /\
       JS.get "sub" claims = Some (JString u) /\
       JS.get "aud" claims = Some (JString (collectionName collection))).
Proof.
  intros _ Hu Hfind Htruthy. unfold authorize. rewrite Hfind, Htruthy. split.
  - intros secret w1 Hsecret. rewrite Hsecret. eauto.
  - intros token w'.
    destruct (getRandomBytesFrom _ _) as [[secret|err] w1] eqn:Hsecret; [|discriminate].
    intros [= <- <-]. exists secret. eexists.
    split; [exact (getRandomBytesFrom_again _ _ _ _ Hsecret)|].
    unfold verify, sign. cbn [signed_with payload].
    destruct (decide (secret = secret)) as [_|Hne]; [|congruence].
    split; [reflexivity|]. rewrite Hu. split; reflexivity.
Qed.

Lemma authorize_token_roundtrip_witness :
  exists token w' secret claims,
    authorize Sample.memory Sample.secrets Sample.alice Sample.registered
      = (Resolved token, w') /\
    getRandomBytesFrom (secretPath Sample.memory Sample.secrets) w' = (Return secret, w') /\
    verify token secret = Return claims /\
    JS.get "sub" claims = Some (JString "alice_1") /\
    JS.get "aud" claims = Some (JString "users").
Proof.
  destruct (authorize_token_roundtrip Sample.memory Sample.secrets Sample.alice "alice_1"
              (Some Sample.alice) [Sample.alice; Sample.bob] Sample.registered
              ltac:(vm_compute; reflexivity) eq_refl
              ltac:(vm_compute; reflexivity) eq_refl) as [Hissue Hround].
  edestruct Hissue as [token Htoken]; [vm_compute; reflexivity|].
  destruct (Hround _ _ Htoken) as (secret & claims & H).
  exists token. eexists. exists secret, claims. split; [exact Htoken|exact H].
Defined.

(** C4.  For every request [POST /authorize] whose body is valid and for
    which [findOne] resolves with no record: [authorize] rejects, and the
    client gets status 403 with the message that no user was found for
    the credentials. *)
Theorem unknown_user_forbidden {Store : Type} (collection : Collection Store)
    (secretsDir : list string) (r : Router) (req : Request) (w : World Store)
    (user : option json) (st : Store) :
  method req = "POST" -> path req = ["authorize"] ->
  Credentials.validate (body req) = None ->
  findOne collection (body req) (store w) = (Resolved user, st) ->
  falsy user = true ->
  authorize collection secretsDir (body req) w
    = (Rejected (NO_USER (body req)), set_store st w) /\
  handle collection secretsDir r req w
    = (respond {| status := 403;
                  body_of := Json (JString (message (NO_USER (body req)))) |},
       set_store st w) /\
  String.prefix "No user was found for the credentials: " (message (NO_USER (body req)))
    = true.
Proof.
  intros Hm Hp Hvalid Hfind Hnone.
  pose proof (authorize_no_user collection secretsDir _ _ _ _ Hfind Hnone) as Hauth.
  split; [exact Hauth|]. split.
  - now apply handle_no_user with user.
  - apply prefix_append.
Qed.

Lemma unknown_user_forbidden_witness :
  fst (handle Sample.memory Sample.secrets Sample.router
         (Sample.post ["authorize"] Sample.alice) Sample.empty)
  = respond {| status := 403;
               body_of := Json (JString (message (NO_USER Sample.alice))) |}.
Proof.
  destruct (unknown_user_forbidden Sample.memory Sample.secrets Sample.router
              (Sample.post ["authorize"] Sample.alice) Sample.empty None []
              eq_refl eq_refl ltac:(vm_compute; reflexivity) eq_refl eq_refl)
    as (_ & Hhandle & _).
  now rewrite Hhandle.
Defined.

(** C7.  For every request [POST /] or [POST /authorize] whose body fails
    validation: the answer is status 400 with one of the three messages of
    the middleware, the request goes no further, the world (the
    collection, the secret files, the random source) is left as it was,
    and the outcome is the same whatever the collection's operations and
    the secrets directory are. *)
Theorem invalid_body_touches_nothing {Store : Type} (collection : Collection Store)
    (secretsDir : list string) (r : Router) (req : Request) (w : World Store)
    (err : ValidationError) :
  method req = "POST" -> path req = [] \/ path req = ["authorize"] ->
  Credentials.validate (body req) = Some err ->
  exists msg,
    In msg [Credentials.PASSWORD_MESSAGE; Credentials.USERNAME_MESSAGE;
            Credentials.GENERIC_MESSAGE] /\
    handle collection secretsDir r req w
      = (respond {| status := 400; body_of := Json (JString msg) |}, w) /\
    forall (other : Collection Store) (dir : list string),
      handle other dir r req w = handle collection secretsDir r req w.
Proof.
  intros Hm Hp Hinvalid.
  assert (Hany : forall (c : Collection Store) (d : list string), exists msg,
            In msg [Credentials.PASSWORD_MESSAGE; Credentials.USERNAME_MESSAGE;
                    Credentials.GENERIC_MESSAGE] /\
            handle c d r req w
              = ({| response := sent (Credentials.middleware (body req));
                    downstream := false; error := None |}, w) /\
            sent (Credentials.middleware (body req))
              = Some {| status := 400; body_of := Json (JString msg) |}).
  { intros c d.
    assert (Hhandle : exists handler, handle c d r req w = guarded handler req w).
    { destruct Hp as [Hp|Hp]; eexists.
      - apply (handle_post_root _ _ _ _ _ Hm Hp).
      - apply (handle_post_authorize _ _ _ _ _ Hm Hp). }
    destruct Hhandle as (handler & ->).
    unfold guarded, Credentials.middleware. rewrite Hinvalid.
    destruct (String.eqb _ _); [|destruct (String.eqb _ _)];
      eexists; (split; [|split; reflexivity]); cbn; auto. }
  destruct (Hany collection secretsDir) as (msg & Hin & Hhandle & Hsent).
  exists msg. split; [exact Hin|]. split.
  - rewrite Hhandle, Hsent. reflexivity.
  - intros other dir. destruct (Hany other dir) as (_ & _ & Hother & _).
    now rewrite Hother, Hhandle.
Qed.

Lemma invalid_body_touches_nothing_witness :
  exists msg,
    handle Sample.memory Sample.secrets Sample.router
      (Sample.post [] (JObject [("username", JString "bad user"); ("password", JString "x")]))
      Sample.registered
    = (respond {| status := 400; body_of := Json (JString msg) |}, Sample.registered).
Proof.
  destruct (invalid_body_touches_nothing Sample.memory Sample.secrets Sample.router
              (Sample.post [] (JObject [("username", JString "bad user");
                                        ("password", JString "x")]))
              Sample.registered
              {| JSONSchema.property := "instance.username"; JSONSchema.name := "pattern" |}
              eq_refl (or_introl eq_refl) ltac:(vm_compute; reflexivity))
    as (msg & _ & Hhandle & _).
  exists msg. exact Hhandle.
Defined.

(** C8.  For every method other than POST, a request to [/authorize] is
    answered with status 400 and the message
    [Cannot <method> /authorize, use POST instead], which names the method;
    nothing in the world changes. *)
Theorem authorize_needs_post {Store : Type} (collection : Collection Store)
    (secretsDir : list string) (r : Router) (req : Request) (w : World Store) :
  path req = ["authorize"] -> method req <> "POST" ->
  handle collection secretsDir r req w
    = (respond {| status := 400;
                  body_of := Json (JString ("Cannot " +:+ method req
                                            +:+ " /authorize, use POST instead")) |}, w) /\
  includes (method req)
    ("Cannot " +:+ method req +:+ " /authorize, use POST instead") = true /\
  includes "use POST instead"
    ("Cannot " +:+ method req +:+ " /authorize, use POST instead") = true.
Proof.
  intros Hp Hm. split; [|split].
  - now rewrite (handle_all_authorize _ _ _ _ _ Hm Hp).
  - apply includes_middle.
  - replace ("Cannot " +:+ method req +:+ " /authorize, use POST instead")
      with (("Cannot " +:+ method req +:+ " /authorize, ") +:+ "use POST instead" +:+ EmptyString)
      by (now rewrite !append_assoc).
    apply includes_middle.
Qed.

Lemma authorize_needs_post_witness :
  handle Sample.memory Sample.secrets Sample.router
    {| method := "PUT"; path := ["authorize"]; body := Sample.alice; bearer := None |}
    Sample.registered
  = (respond {| status := 400;
                body_of := Json (JString "Cannot PUT /authorize, use POST instead") |},
     Sample.registered).
Proof.
  apply (authorize_needs_post Sample.memory Sample.secrets Sample.router
           {| method := "PUT"; path := ["authorize"]; body := Sample.alice; bearer := None |}
           Sample.registered eq_refl).
  discriminate.
Defined.

(** C9.  For every request [POST /authorize] whose body is an object that
    passes validation but matches no stored user: the body of the 403
    response is the fixed prefix followed by [JSON.stringify] of the whole
    submitted object, and that text shows the [password] property with its
    value as a JSON string; a password that needs no escaping appears in
    it letter by letter. *)
Theorem rejected_credentials_echoed {Store : Type} (collection : Collection Store)
    (secretsDir : list string) (r : Router) (req : Request) (w : World Store)
    (fields : list (string * json)) (user : option json) (st : Store) :
  method req = "POST" -> path req = ["authorize"] ->
  body req = JObject fields ->
  Credentials.validate (body req) = None ->
  findOne collection (body req) (store w) = (Resolved user, st) ->
  falsy user = true ->
  exists p msg,
    JS.get "password" fields = Some (JString p) /\
    fst (handle collection secretsDir r req w)
      = respond {| status := 403; body_of := Json (JString msg) |} /\
    msg = "No user was found for the credentials: " +:+ stringify (JObject fields) /\
    includes (quote "password" +:+ ":" +:+ quote p) msg = true /\
    (escape p = p -> includes p msg = true).
Proof.
  intros Hm Hp Hbody Hvalid Hfind Hnone.
  pose proof (handle_no_user collection secretsDir r req w user st
                Hm Hp Hvalid Hfind Hnone) as Hhandle.
  rewrite Hbody in Hvalid, Hhandle.
  destruct (validate_accepts_inv _ Hvalid) as (u & p & _ & _ & Hpass & _).
  destruct (stringify_property _ _ _ Hpass) as (before & after & Htext).
  exists p, ("No user was found for the credentials: " +:+ stringify (JObject fields)).
  split; [exact Hpass|]. split; [now rewrite Hhandle|]. split; [reflexivity|].
  rewrite Htext. split.
  - rewrite <- (append_assoc "No user was found for the credentials: " before).
    exact (includes_middle _ _ _).
  - intros Hplain. cbn [stringify]. unfold quote at 2. rewrite Hplain.
    replace ("No user was found for the credentials: " +:+
             before +:+ (quote "password" +:+ ":" +:+ String dquote (p +:+ str dquote)) +:+ after)
      with (("No user was found for the credentials: " +:+ before +:+
             quote "password" +:+ ":" +:+ str dquote) +:+ p +:+ (str dquote +:+ after)).
    + apply includes_middle.
    + rewrite !append_assoc, (append_cons dquote (p +:+ str dquote) after).
      rewrite (append_assoc p). reflexivity.
Qed.

Lemma rejected_credentials_echoed_witness :
  exists msg,
    fst (handle Sample.memory Sample.secrets Sample.router
           (Sample.post ["authorize"] Sample.alice) Sample.empty)
      = respond {| status := 403; body_of := Json (JString msg) |} /\
    includes "Abcdef1!" msg = true.
Proof.
  destruct (rejected_credentials_echoed Sample.memory Sample.secrets Sample.router
              (Sample.post ["authorize"] Sample.alice) Sample.empty
              [("username", JString "alice_1"); ("password", JString "Abcdef1!")] None []
              eq_refl eq_refl eq_refl ltac:(vm_compute; reflexivity) eq_refl eq_refl)
    as (p & msg & Hp & Hhandle & _ & _ & Hplain).
  exists msg. split; [exact Hhandle|].
  injection Hp as <-. apply Hplain. reflexivity.
Defined.





(* ===================================================================== *)
(** * Further properties of src/credentials.js *)
(* ===================================================================== *)

Section PatternFacts.

Lemma some_char_not_all (ok : ascii -> bool) s :
  some_char (fun c => negb (ok c)) s = true -> all_chars ok s = false.
Proof.
  induction s as [|c rest IH]; cbn [some_char all_chars]; [discriminate|].
  destruct (ok c); cbn [negb orb andb]; auto.
Qed.

Lemma policy_some_chars s :
  Policy.PASSWORD_POLICY s = true ->
  8 <= String.length s /\
  some_char (in_class Credentials.UPPER) s = true /\
  some_char (in_class Credentials.LOWER) s = true /\
  some_char (in_class Credentials.DIGIT) s = true.
Proof.
  unfold Policy.PASSWORD_POLICY. intros H.
  apply andb_true_iff in H as [H _].
  apply andb_true_iff in H as [H Hd].
  apply andb_true_iff in H as [H Hl].
  apply andb_true_iff in H as [Hlen Hu].
  apply Nat.leb_le in Hlen. auto.
Qed.

(** The message of [middleware] when one of the two strings breaks its
    pattern. *)
Lemma middleware_bad_username fields u :
  JS.get "username" fields = Some (JString u) ->
  Credentials.USERNAME_PATTERN u = false ->
  Credentials.middleware (JObject fields) = Credentials.reject Credentials.USERNAME_MESSAGE.
Proof.
  intros Hu Hbad. unfold Credentials.middleware.
  rewrite validate_object, Hu. cbn [validate_property]. now rewrite Hbad.
Qed.

Lemma middleware_bad_password fields p :
  Policy.absent_or_conforms Credentials.USERNAME_PATTERN (JS.get "username" fields) = true ->
  JS.get "password" fields = Some (JString p) ->
  Credentials.PASSWORD_REGEX p = false ->
  Credentials.middleware (JObject fields) = Credentials.reject Credentials.PASSWORD_MESSAGE.
Proof.
  intros Hu Hp Hbad. unfold Credentials.middleware.
  rewrite validate_object, Hp. unfold Policy.absent_or_conforms in Hu.
  destruct (JS.get "username" fields) as [[| | |u| |]|]; try discriminate Hu;
    cbn [validate_property]; rewrite ?Hu, Hbad; reflexivity.
Qed.

End PatternFacts.

(** X1.  [validate] accepts an object exactly when its [username] is a
    string that matches the username pattern and its [password] is a
    string that matches [PASSWORD_REGEX]. *)
Theorem validate_accepts_exactly (fields : list (string * json)) :
  Credentials.validate (JObject fields) = None <->
  exists u p,
    JS.get "username" fields = Some (JString u) /\ Credentials.USERNAME_PATTERN u = true /\
    JS.get "password" fields = Some (JString p) /\ Credentials.PASSWORD_REGEX p = true.
Proof.
  split.
  - apply validate_accepts_inv.
  - intros (u & p & Hu & Hup & Hp & Hpp). now apply validate_accepts with u p.
Qed.

(** X2.  The password rule as the code has it: with a conforming username,
    an object whose password is the string [p] is accepted exactly when [p]
    has at least 8 characters, none of them a line terminator, and among
    them a capital letter, a small letter and a digit. *)
Theorem password_rule_as_coded (fields : list (string * json)) (u p : string) :
  JS.get "username" fields = Some (JString u) ->
  Credentials.USERNAME_PATTERN u = true ->
  JS.get "password" fields = Some (JString p) ->
  (Credentials.validate (JObject fields) = None <->
   8 <= String.length p /\ all_chars dot p = true /\
   some_char (in_class Credentials.UPPER) p = true /\
   some_char (in_class Credentials.LOWER) p = true /\
   some_char (in_class Credentials.DIGIT) p = true).
Proof.
  intros Hu Hup Hp. rewrite <- PASSWORD_REGEX_accepts. split.
  - intros Hvalid. destruct (validate_accepts_inv _ Hvalid) as (u' & p' & _ & _ & Hp' & Hpp).
    rewrite Hp in Hp'. now injection Hp' as ->.
  - intros Hpp. now apply validate_accepts with u p.
Qed.

Lemma password_rule_as_coded_witness :
  Credentials.validate
    (JObject [("username", JString "carol"); ("password", JString "Zyxwvut9")]) = None.
Proof.
  apply (password_rule_as_coded
           [("username", JString "carol"); ("password", JString "Zyxwvut9")]
           "carol" "Zyxwvut9" eq_refl ltac:(vm_compute; reflexivity) eq_refl).
  repeat split; vm_compute; [lia|..]; reflexivity.
Defined.

(** X3.  A password that holds a line feed or a carriage return is
    rejected with the message about passwords, whatever else it holds
    (the username being absent or conforming). *)
Theorem line_terminator_rejected (fields : list (string * json)) (p : string) :
  Policy.absent_or_conforms Credentials.USERNAME_PATTERN (JS.get "username" fields) = true ->
  JS.get "password" fields = Some (JString p) ->
  some_char (fun c => negb (dot c)) p = true ->
  Credentials.PASSWORD_REGEX p = false /\
  Credentials.middleware (JObject fields) = Credentials.reject Credentials.PASSWORD_MESSAGE.
Proof.
  intros Hu Hp Hline.
  assert (Hbad : Credentials.PASSWORD_REGEX p = false).
  { unfold Credentials.PASSWORD_REGEX, dots_at_least.
    rewrite (some_char_not_all _ _ Hline). now rewrite !andb_false_r. }
  split; [exact Hbad|]. now apply middleware_bad_password with p.
Qed.

Lemma line_terminator_rejected_witness :
  Policy.PASSWORD_POLICY Scenario.two_lines = true /\
  Credentials.middleware
    (JObject [("username", JString "alice_1"); ("password", JString Scenario.two_lines)])
  = Credentials.reject Credentials.PASSWORD_MESSAGE.
Proof.
  split; [vm_compute; reflexivity|].
  apply (line_terminator_rejected
           [("username", JString "alice_1"); ("password", JString Scenario.two_lines)]
           Scenario.two_lines); vm_compute; reflexivity.
Defined.

(** X4.  Every password that meets the policy as the messages word it
    (8 characters, a capital letter, a small letter, a digit, a special
    character) and holds no line terminator matches [PASSWORD_REGEX]. *)
Theorem policy_passwords_match (p : string) :
  Policy.PASSWORD_POLICY p = true -> all_chars dot p = true ->
  Credentials.PASSWORD_REGEX p = true.
Proof.
  intros Hpolicy Hdots. apply PASSWORD_REGEX_accepts.
  destruct (policy_some_chars _ Hpolicy) as (Hlen & Hu & Hl & Hd). auto.
Qed.

Lemma policy_passwords_match_witness : Credentials.PASSWORD_REGEX "Qwerty7?" = true.
Proof.
  apply policy_passwords_match; vm_compute; reflexivity.
Defined.

(** X5.  The order of the checks: a username string that breaks its
    pattern gets the message about usernames whatever the password is, and
    a password string that breaks its pattern gets the message about
    passwords once the username is absent or conforms. *)
Theorem pattern_messages_in_order (fields : list (string * json)) :
  (forall u, JS.get "username" fields = Some (JString u) ->
             Credentials.USERNAME_PATTERN u = false ->
             Credentials.middleware (JObject fields)
             = Credentials.reject Credentials.USERNAME_MESSAGE) /\
  (forall p, Policy.absent_or_conforms Credentials.USERNAME_PATTERN
               (JS.get "username" fields) = true ->
             JS.get "password" fields = Some (JString p) ->
             Credentials.PASSWORD_REGEX p = false ->
             Credentials.middleware (JObject fields)
             = Credentials.reject Credentials.PASSWORD_MESSAGE).
Proof.
  split.
  - intros u. apply middleware_bad_username.
  - intros p Hu Hp Hbad. now apply middleware_bad_password with p.
Qed.

Lemma pattern_messages_in_order_witness :
  Credentials.middleware (JObject [("username", JString "bad user"); ("password", JString "x")])
  = Credentials.reject Credentials.USERNAME_MESSAGE /\
  Credentials.middleware (JObject [("username", JString "alice_1"); ("password", JString "x")])
  = Credentials.reject Credentials.PASSWORD_MESSAGE /\
  Credentials.middleware (JObject [("username", JString EmptyString);
                                   ("password", JString "Abcdef1!")])
  = Credentials.reject Credentials.USERNAME_MESSAGE.
Proof.
  split; [|split].
  - apply (proj1 (pattern_messages_in_order
             [("username", JString "bad user"); ("password", JString "x")]) "bad user");
      vm_compute; reflexivity.
  - apply (proj2 (pattern_messages_in_order
             [("username", JString "alice_1"); ("password", JString "x")]) "x");
      vm_compute; reflexivity.
  - apply (proj1 (pattern_messages_in_order
             [("username", JString EmptyString); ("password", JString "Abcdef1!")])
             EmptyString); vm_compute; reflexivity.
Defined.

(** X6.  [validate] looks at nothing but the two properties: objects that
    agree on [username] and on [password] get the same verdict, so other
    properties, and the order of the properties, make no difference. *)
Theorem other_properties_ignored (fields fields' : list (string * json)) :
  JS.get "username" fields' = JS.get "username" fields ->
  JS.get "password" fields' = JS.get "password" fields ->
  Credentials.validate (JObject fields') = Credentials.validate (JObject fields) /\
  Credentials.middleware (JObject fields') = Credentials.middleware (JObject fields).
Proof.
  intros Hu Hp. unfold Credentials.middleware.
  rewrite (validate_object fields'), (validate_object fields), Hu, Hp. split; reflexivity.
Qed.

Lemma other_properties_ignored_witness :
  Credentials.validate
    (JObject [("admin", JBool true); ("password", JString "Abcdef1!");
              ("username", JString "alice_1")])
  = Credentials.validate Sample.alice.
Proof.
  apply (other_properties_ignored
           [("username", JString "alice_1"); ("password", JString "Abcdef1!")]
           [("admin", JBool true); ("password", JString "Abcdef1!");
            ("username", JString "alice_1")]); reflexivity.
Defined.

(* ===================================================================== *)
(** * Further properties of getRandomBytesFrom *)
(* ===================================================================== *)

Section FileSystemFacts.

Implicit Types (fs : gmap (list string) node) (base rest p q : list string).

(** [mkdirp] adds directories only: a file found afterwards was there
    before. *)
Lemma mkdirp_from_no_new_file rest : forall base fs r fs' q data,
  mkdirp_from base rest fs = (r, fs') ->
  fs' !! q = Some (File data) -> fs !! q = Some (File data).
Proof.
  induction rest as [|seg rest IH]; intros base fs r fs' q data; cbn [mkdirp_from].
  - now intros [= _ <-].
  - destruct (fs !! _) as [[d|]|] eqn:Hp.
    + now intros [= _ <-].
    + apply IH.
    + intros Hrun Hq. pose proof (IH _ _ _ _ _ _ Hrun Hq) as Hbefore.
      destruct (decide (base ++ [seg] = q)) as [<-|Hne].
      * rewrite lookup_insert_eq in Hbefore. discriminate Hbefore.
      * now rewrite lookup_insert_ne in Hbefore.
Qed.

(** [mkdirp] throws when a file lies on the way. *)
Lemma mkdirp_from_blocked rest : forall base fs k data,
  1 <= k <= length rest -> fs !! (base ++ take k rest) = Some (File data) ->
  exists err fs', mkdirp_from base rest fs = (Some err, fs').
Proof.
  induction rest as [|seg rest IH]; intros base fs k data Hk Hfile;
    cbn [mkdirp_from length] in *; [lia|].
  destruct k as [|[|k]]; [lia| |].
  - change (take 1 (seg :: rest)) with [seg] in Hfile. rewrite Hfile. eauto.
  - rewrite firstn_cons, cons_middle, app_assoc in Hfile.
    destruct (fs !! (base ++ [seg])) as [[d|]|] eqn:Hp; [eauto| |].
    + apply (IH _ _ (S k) data); [lia|exact Hfile].
    + apply (IH _ _ (S k) data); [lia|].
      rewrite lookup_insert_ne; [exact Hfile|].
      intros Heq. apply (f_equal (@length string)) in Heq.
      rewrite !length_app, length_take in Heq. cbn [length] in Heq. lia.
Qed.

(** After [mkdirp.sync(path.dirname(p))] the node at [p] is what it was and
    its parent is a directory. *)
Lemma mkdirp_sync_parent p fs fs1 :
  p <> [] -> mkdirp_sync (dirname p) fs = (None, fs1) ->
  fs1 !! p = fs !! p /\ is_dir (dirname p) fs1 = true.
Proof.
  intros Hp Hmk. unfold mkdirp_sync in Hmk.
  assert (Hlen : length (dirname p) < length p).
  { unfold dirname. rewrite removelast_firstn_len, length_take.
    destruct p; [congruence|]. cbn [length]. lia. }
  split.
  - apply (mkdirp_from_elsewhere _ _ _ _ _ _ Hmk). intros k Hk Heq.
    apply (f_equal (@length string)) in Heq. cbn [app] in Heq.
    rewrite length_take in Heq. lia.
  - unfold is_dir. destruct (dirname p) as [|seg d] eqn:Hd; [reflexivity|].
    pose proof (mkdirp_from_dirs _ _ _ _ Hmk (length (seg :: d)) ltac:(cbn; lia)) as Hdir.
    rewrite firstn_all in Hdir. cbn [app] in Hdir. now rewrite Hdir.
Qed.

Lemma readFileSync_file p fs data :
  p <> [] -> fs !! p = Some (File data) -> readFileSync p fs = Return data.
Proof.
  intros Hp Hfile. unfold readFileSync. destruct p; [congruence|]. now rewrite Hfile.
Qed.

End FileSystemFacts.

Section ProvisionerFacts.

Context {Store : Type}.
Implicit Types (w : World Store) (p q : list string).

(** The call leaves the collection and the clock alone. *)
Lemma getRandomBytesFrom_store p w r w' :
  getRandomBytesFrom p w = (r, w') -> store w' = store w /\ clock w' = clock w.
Proof.
  unfold getRandomBytesFrom.
  destruct (mkdirp_sync _ _) as [[err|] fs1]; [now intros [= _ <-]|].
  destruct (readFileSync _ _); [now intros [= _ <-]|].
  cbn [randomBytes]. destruct (writeFileSync _ _ _); now intros [= _ <-].
Qed.

(** A file that is there stays there with its content, whatever the call
    does. *)
Lemma getRandomBytesFrom_keeps p w r w' q data :
  getRandomBytesFrom p w = (r, w') ->
  fs w !! q = Some (File data) -> fs w' !! q = Some (File data).
Proof.
  unfold getRandomBytesFrom.
  destruct (mkdirp_sync _ _) as [o fs1] eqn:Hmk. intros Hcall Hq.
  pose proof (mkdirp_from_preserves _ _ _ _ _ _ _ Hmk Hq) as Hq1.
  destruct o as [err|]; [now injection Hcall as _ <-|].
  destruct (readFileSync p fs1) as [d|err] eqn:Hread; [now injection Hcall as _ <-|].
  cbn [randomBytes] in Hcall.
  destruct (writeFileSync _ _ _) as [fs2|err2] eqn:Hwrite; injection Hcall as _ <-;
    cbn [fs set_fs set_entropy]; [|exact Hq1].
  apply writeFileSync_inv in Hwrite as [Hp ->].
  rewrite lookup_insert_ne; [exact Hq1|].
  intros <-. rewrite (readFileSync_file _ _ _ Hp Hq1) in Hread. discriminate Hread.
Qed.


(** The secret that a call returned is what every call returns on a disk
    with the same content, whatever the rest of the world is. *)
Lemma getRandomBytesFrom_on_same_disk p w secret w' (w2 : World Store) :
  getRandomBytesFrom p w = (Return secret, w') -> fs w2 = fs w' ->
  getRandomBytesFrom p w2 = (Return secret, w2).
Proof.
  intros Hcall Hdisk. pose proof (getRandomBytesFrom_again _ _ _ _ Hcall) as Hagain.
  unfold getRandomBytesFrom in Hagain |- *. rewrite Hdisk.
  destruct (mkdirp_sync (dirname p) (fs w')) as [[err|] fs1] eqn:Hmk; [discriminate|].
  destruct (readFileSync p fs1) as [data|err] eqn:Hread.
  - injection Hagain as -> Hw. apply (f_equal fs) in Hw. cbn [fs set_fs] in Hw.
    rewrite Hw, <- Hdisk. destruct w2; reflexivity.
  - exfalso. cbn [randomBytes] in Hagain.
    destruct (writeFileSync p _ fs1) as [fs2|err2] eqn:Hwrite; [|discriminate].
    injection Hagain as _ Hw. apply (f_equal fs) in Hw. cbn [fs set_fs set_entropy] in Hw.
    apply writeFileSync_inv in Hwrite as [Hp Hfs2].
    assert (Hthere : fs w' !! p = Some (File (map (entropy w') (seq 0 256)))).
    { rewrite <- Hw, Hfs2. apply lookup_insert_eq. }
    pose proof (mkdirp_from_preserves _ _ _ _ _ _ _ Hmk Hthere) as Hstill.
    rewrite (readFileSync_file _ _ _ Hp Hstill) in Hread. discriminate Hread.
Qed.

End ProvisionerFacts.

(** X7.  A secret file that exists is returned as it is: no random byte is
    drawn, the collection is not touched, and the files on the disk are
    exactly those that were there (at most directories are added).  The
    preconditions: the path is not the root and no file lies where a
    directory is needed. *)
Theorem existing_secret_returned {Store : Type} (p : list string) (w : World Store)
    (data : list Byte.byte) :
  p <> [] -> fs w !! p = Some (File data) ->
  (forall k d, 1 <= k <= length (dirname p) ->
               fs w !! take k (dirname p) <> Some (File d)) ->
  exists w',
    getRandomBytesFrom p w = (Return data, w') /\
    entropy w' = entropy w /\ store w' = store w /\
    forall q d, fs w' !! q = Some (File d) <-> fs w !! q = Some (File d).
Proof.
  intros Hp Hfile Hfree.
  destruct (mkdirp_from_succeeds (dirname p) [] (fs w) Hfree) as (fs1 & Hmk).
  exists (set_fs fs1 w). unfold getRandomBytesFrom, mkdirp_sync. rewrite Hmk.
  rewrite (readFileSync_file p fs1 data Hp (mkdirp_from_preserves _ _ _ _ _ _ _ Hmk Hfile)).
  repeat split; cbn [fs set_fs].
  - apply (mkdirp_from_no_new_file _ _ _ _ _ _ _ Hmk).
  - apply (mkdirp_from_preserves _ _ _ _ _ _ _ Hmk).
Qed.

Lemma existing_secret_returned_witness :
  exists w',
    getRandomBytesFrom ["var"; "secrets"; "users"] Scenario.provisioned
      = (Return [Byte.x01; Byte.x02; Byte.x03], w') /\
    entropy w' = entropy Scenario.provisioned.
Proof.
  destruct (existing_secret_returned ["var"; "secrets"; "users"] Scenario.provisioned
              [Byte.x01; Byte.x02; Byte.x03] ltac:(discriminate) eq_refl)
    as (w' & Hcall & Hentropy & _).
  - intros [|[|[|k]]] d Hk; cbn in Hk; try lia; vm_compute; discriminate.
  - exists w'. split; [exact Hcall|exact Hentropy].
Defined.

(** X8.  Where nothing lies at the path (and the path is not the root, and
    no file lies where a directory is needed), the call draws the next 256
    random bytes, writes them to the file at the path and returns them;
    the random source moves on by 256 bytes. *)
Theorem fresh_secret_created {Store : Type} (p : list string) (w : World Store) :
  p <> [] -> fs w !! p = None ->
  (forall k d, 1 <= k <= length (dirname p) ->
               fs w !! take k (dirname p) <> Some (File d)) ->
  exists w',
    getRandomBytesFrom p w = (Return (map (entropy w) (seq 0 256)), w') /\
    length (map (entropy w) (seq 0 256)) = 256 /\
    fs w' !! p = Some (File (map (entropy w) (seq 0 256))) /\
    forall i, entropy w' i = entropy w (256 + i).
Proof.
  intros Hp Hnone Hfree.
  destruct (mkdirp_from_succeeds (dirname p) [] (fs w) Hfree) as (fs1 & Hmk).
  destruct (mkdirp_sync_parent p (fs w) fs1 Hp Hmk) as [Hsame Hparent].
  unfold getRandomBytesFrom. unfold mkdirp_sync in *. rewrite Hmk.
  unfold readFileSync, writeFileSync. destruct p as [|seg p0]; [congruence|].
  rewrite Hsame, Hnone, Hparent. cbn [randomBytes].
  eexists. split; [reflexivity|]. cbn [fs entropy set_fs set_entropy].
  split; [now rewrite length_map, length_seq|].
  split; [apply lookup_insert_eq|reflexivity].
Qed.

Lemma fresh_secret_created_witness :
  exists w',
    getRandomBytesFrom ["var"; "secrets"; "users"] Sample.empty
      = (Return (repeat Byte.x2a 256), w') /\
    fs w' !! ["var"; "secrets"; "users"] = Some (File (repeat Byte.x2a 256)).
Proof.
  destruct (fresh_secret_created ["var"; "secrets"; "users"] Sample.empty
              ltac:(discriminate) eq_refl) as (w' & Hcall & _ & Hfile & _).
  - intros k d _. vm_compute. discriminate.
  - exists w'. split; [exact Hcall|exact Hfile].
Defined.

(** X9.  Whatever a call does, return or throw, it never removes or
    rewrites a file: every file that was on the disk is still there with
    the same content (an existing secret included), and the collection and
    the clock are not touched. *)
Theorem files_never_overwritten {Store : Type} (p : list string) (w w' : World Store)
    (r : Completion (list Byte.byte)) :
  getRandomBytesFrom p w = (r, w') ->
  (forall q data, fs w !! q = Some (File data) -> fs w' !! q = Some (File data)) /\
  store w' = store w /\ clock w' = clock w.
Proof.
  intros Hcall. split.
  - intros q data. now apply getRandomBytesFrom_keeps with p r.
  - now apply getRandomBytesFrom_store with p r.
Qed.

Lemma files_never_overwritten_witness :
  fs (snd (getRandomBytesFrom ["var"; "secrets"; "admins"] Scenario.provisioned))
    !! ["var"; "secrets"; "users"] = Some (File [Byte.x01; Byte.x02; Byte.x03]).
Proof.
  destruct (getRandomBytesFrom ["var"; "secrets"; "admins"] Scenario.provisioned)
    as [r w'] eqn:Hcall.
  apply (proj1 (files_never_overwritten _ _ _ _ Hcall)). reflexivity.
Defined.

(** X10.  The call throws, and returns no secret, when a file lies where a
    directory is needed, when the path itself is a directory, and when the
    path is the root. *)
Theorem provisioning_blocked {Store : Type} (p : list string) (w : World Store) :
  (exists k d, 1 <= k <= length (dirname p) /\
               fs w !! take k (dirname p) = Some (File d)) \/
  fs w !! p = Some Dir \/ p = [] ->
  exists err w', getRandomBytesFrom p w = (Throw err, w').
Proof.
  intros Hblocked. unfold getRandomBytesFrom.
  destruct (mkdirp_sync (dirname p) (fs w)) as [[err|] fs1] eqn:Hmk; [eauto|].
  destruct Hblocked as [(k & d & Hk & Hfile)|Hdir].
  - destruct (mkdirp_from_blocked (dirname p) [] (fs w) k d Hk Hfile)
      as (err & fs' & Hthrow).
    unfold mkdirp_sync in Hmk. rewrite Hmk in Hthrow. discriminate Hthrow.
  - assert (Hread : exists err, readFileSync p fs1 = Throw err).
    { unfold readFileSync. destruct p as [|seg p0]; [eauto|].
      destruct Hdir as [Hdir|Hroot]; [|discriminate Hroot].
      rewrite (mkdirp_from_preserves _ _ _ _ _ _ _ Hmk Hdir). eauto. }
    destruct Hread as (err & ->). cbn [randomBytes].
    assert (Hwrite : exists err2, writeFileSync p (map (entropy w) (seq 0 256)) fs1
                                  = Throw err2).
    { unfold writeFileSync. destruct p as [|seg p0]; [eauto|].
      destruct Hdir as [Hdir|Hroot]; [|discriminate Hroot].
      rewrite (mkdirp_from_preserves _ _ _ _ _ _ _ Hmk Hdir). eauto. }
    destruct Hwrite as (err2 & ->). eauto.
Qed.

Lemma provisioning_blocked_witness :
  exists err w',
    getRandomBytesFrom (secretPath Sample.memory Sample.secrets) Scenario.blocked
    = (Throw err, w').
Proof.
  apply provisioning_blocked. left. exists 1, [Byte.x00]. split; [cbn; lia|reflexivity].
Defined.



(* ===================================================================== *)
(** * Further properties of the routes of src/index.js *)
(* ===================================================================== *)

Section RouteFacts.

Context {Store : Type}.
Variable collection : Collection Store.
Variable secretsDir : list string.
Implicit Types (r : Router) (req : Request) (w : World Store).

(** [POST /] with a body that passes validation runs the handler on
    [register]. *)
Lemma handle_register r req w :
  method req = "POST" -> path req = [] -> Credentials.validate (body req) = None ->
  handle collection secretsDir r req w = post_root collection req w.
Proof.
  intros Hm Hp Hvalid.
  now rewrite (handle_post_root _ _ _ _ _ Hm Hp), (guarded_accepts _ _ _ Hvalid).
Qed.

(** [POST /authorize] with a body that passes validation runs the handler
    on [authorize]. *)
Lemma handle_authorize r req w :
  method req = "POST" -> path req = ["authorize"] ->
  Credentials.validate (body req) = None ->
  handle collection secretsDir r req w = post_authorize collection secretsDir req w.
Proof.
  intros Hm Hp Hvalid.
  now rewrite (handle_post_authorize _ _ _ _ _ Hm Hp), (guarded_accepts _ _ _ Hvalid).
Qed.

(** [authorize] when the lookup finds a user and the secret is there. *)
Lemma authorize_signs credentials w user st secret w1 :
  findOne collection credentials (store w) = (Resolved user, st) -> falsy user = false ->
  getRandomBytesFrom (secretPath collection secretsDir) (set_store st w)
    = (Return secret, w1) ->
  authorize collection secretsDir credentials w =
  (Resolved (sign [ ("aud", Some (JString (collectionName collection)));
                    ("sub", prop "username" credentials);
                    ("context", Some (JObject [("user", credentials)])) ]
                  secret (clock w1)), w1).
Proof.
  intros Hfind Htruthy Hsecret. unfold authorize. now rewrite Hfind, Htruthy, Hsecret.
Qed.

(** What a token of [authorize] was signed with. *)
Lemma authorize_inv credentials w token w' :
  authorize collection secretsDir credentials w = (Resolved token, w') ->
  exists user st secret,
    findOne collection credentials (store w) = (Resolved user, st) /\
    getRandomBytesFrom (secretPath collection secretsDir) (set_store st w)
      = (Return secret, w') /\
    signed_with token = secret /\
    JS.get "sub" (payload token) = prop "username" credentials.
Proof.
  unfold authorize.
  destruct (findOne collection credentials (store w)) as [[user|err] st] eqn:Hfind;
    [|discriminate].
  destruct (falsy user); [discriminate|].
  destruct (getRandomBytesFrom _ _) as [[secret|err] w1] eqn:Hsecret; [|discriminate].
  intros [= <- <-]. exists user, st, secret.
  split; [reflexivity|]. split; [exact Hsecret|]. split; [reflexivity|].
  cbn [sign payload defined]. destruct (prop "username" credentials); reflexivity.
Qed.

End RouteFacts.

(** X12.  A JSON array passes validation ([properties] finds nothing to
    check on it and [required] applies to objects only), so [POST /] with
    an array as body hands the array to [insertOne] and answers with its
    result. *)
Theorem array_body_reaches_insertOne {Store : Type} (collection : Collection Store)
    (secretsDir : list string) (r : Router) (req : Request) (w : World Store)
    (items : list json) (result : json) (st : Store) :
  method req = "POST" -> path req = [] -> body req = JArray items ->
  insertOne collection (JArray items) (store w) = (Resolved result, st) ->
  Credentials.validate (JArray items) = None /\
  handle collection secretsDir r req w
    = (respond {| status := 200; body_of := Json result |}, set_store st w).
Proof.
  intros Hm Hp Hbody Hinsert.
  assert (Hvalid : Credentials.validate (JArray items) = None) by reflexivity.
  split; [exact Hvalid|].
  rewrite handle_register; [|assumption..|now rewrite Hbody].
  unfold post_root, register. now rewrite Hbody, Hinsert.
Qed.

Lemma array_body_reaches_insertOne_witness :
  handle Sample.memory Sample.secrets Sample.router (Sample.post [] (JArray [])) Sample.empty
  = (respond {| status := 200; body_of := Json (JObject [("insertedCount", JNumber "1")]) |},
     set_store [JArray []] Sample.empty).
Proof.
  apply (array_body_reaches_insertOne Sample.memory Sample.secrets Sample.router
           (Sample.post [] (JArray [])) Sample.empty [] _ _ eq_refl eq_refl eq_refl eq_refl).
Defined.

(** X13.  Registration: for [POST /] with a valid body, the whole body is
    given to [insertOne]; when that resolves, the answer is status 200
    with its result as JSON, and the collection is left as [insertOne]
    left it. *)
Theorem registration_answers_insert_result {Store : Type} (collection : Collection Store)
    (secretsDir : list string) (r : Router) (req : Request) (w : World Store)
    (result : json) (st : Store) :
  method req = "POST" -> path req = [] -> Credentials.validate (body req) = None ->
  insertOne collection (body req) (store w) = (Resolved result, st) ->
  handle collection secretsDir r req w
    = (respond {| status := 200; body_of := Json result |}, set_store st w).
Proof.
  intros Hm Hp Hvalid Hinsert. rewrite handle_register by assumption.
  unfold post_root, register. now rewrite Hinsert.
Qed.

Lemma registration_answers_insert_result_witness :
  handle Scenario.unique Sample.secrets Sample.router (Sample.post [] Sample.alice)
    Sample.empty
  = (respond {| status := 200; body_of := Json (JObject [("insertedCount", JNumber "1")]) |},
     set_store [Sample.alice] Sample.empty).
Proof.
  apply (registration_answers_insert_result Scenario.unique Sample.secrets Sample.router
           (Sample.post [] Sample.alice) Sample.empty _ _ eq_refl eq_refl
           ltac:(vm_compute; reflexivity) ltac:(vm_compute; reflexivity)).
Defined.

(** X14.  Registration: when [insertOne] rejects, the answer is status 400
    with the message of the collaborator's error, unchanged, as a JSON
    string. *)
Theorem registration_surfaces_insert_error {Store : Type} (collection : Collection Store)
    (secretsDir : list string) (r : Router) (req : Request) (w : World Store)
    (err : Error) (st : Store) :
  method req = "POST" -> path req = [] -> Credentials.validate (body req) = None ->
  insertOne collection (body req) (store w) = (Rejected err, st) ->
  handle collection secretsDir r req w
    = (respond {| status := 400; body_of := Json (JString (message err)) |},
       set_store st w).
Proof.
  intros Hm Hp Hvalid Hinsert. rewrite handle_register by assumption.
  unfold post_root, register. now rewrite Hinsert.
Qed.

Lemma registration_surfaces_insert_error_witness :
  handle Scenario.unique Sample.secrets Sample.router (Sample.post [] Sample.alice)
    Sample.registered
  = (respond {| status := 400;
                body_of := Json (JString
                  "E11000 duplicate key error collection: users index: username_1") |},
     Sample.registered).
Proof.
  apply (registration_surfaces_insert_error Scenario.unique Sample.secrets Sample.router
           (Sample.post [] Sample.alice) Sample.registered Scenario.DUPLICATE
           [Sample.alice; Sample.bob] eq_refl eq_refl
           ltac:(vm_compute; reflexivity) ltac:(vm_compute; reflexivity)).
Defined.

(** X15.  Registration never touches the secrets: whatever the body of a
    [POST /] and whatever [insertOne] does, the disk, the random source
    and the clock are as before. *)
Theorem registration_leaves_secrets {Store : Type} (collection : Collection Store)
    (secretsDir : list string) (r : Router) (req : Request) (w : World Store) :
  method req = "POST" -> path req = [] ->
  fs (snd (handle collection secretsDir r req w)) = fs w /\
  entropy (snd (handle collection secretsDir r req w)) = entropy w /\
  clock (snd (handle collection secretsDir r req w)) = clock w.
Proof.
  intros Hm Hp. rewrite (handle_post_root _ _ _ _ _ Hm Hp).
  unfold guarded, post_root, register.
  destruct (calls_next _); [|now split].
  destruct (insertOne collection (body req) (store w)) as [[result|err] st]; now split.
Qed.

Lemma registration_leaves_secrets_witness :
  fs (snd (handle Scenario.unique Sample.secrets Sample.router
             (Sample.post [] Sample.alice) Scenario.provisioned))
  = fs Scenario.provisioned.
Proof.
  apply (registration_leaves_secrets Scenario.unique Sample.secrets Sample.router
           (Sample.post [] Sample.alice) Scenario.provisioned eq_refl eq_refl).
Defined.



(** X17.  Authorization: for [POST /authorize] with a valid body that
    matches a user, once the secret of the namespace is read or created
    the answer is status 200 with a token signed with that secret; its
    [context] carries the whole submitted body (the password included)
    under [user], and its [iat] is the time of the call. *)
Theorem authorization_answers_token {Store : Type} (collection : Collection Store)
    (secretsDir : list string) (r : Router) (req : Request) (w w1 : World Store)
    (user : option json) (st : Store) (secret : list Byte.byte) :
  method req = "POST" -> path req = ["authorize"] ->
  Credentials.validate (body req) = None ->
  findOne collection (body req) (store w) = (Resolved user, st) -> falsy user = false ->
  getRandomBytesFrom (secretPath collection secretsDir) (set_store st w)
    = (Return secret, w1) ->
  exists token,
    handle collection secretsDir r req w
      = (respond {| status := 200; body_of := JsonToken token |}, w1) /\
    signed_with token = secret /\
    JS.get "context" (payload token) = Some (JObject [("user", body req)]) /\
    JS.get "iat" (payload token) = Some (JNumber (pretty (clock w))).
Proof.
  intros Hm Hp Hvalid Hfind Htruthy Hsecret.
  eexists. split.
  - rewrite handle_authorize by assumption. unfold post_authorize.
    now rewrite (authorize_signs _ _ _ _ _ _ _ _ Hfind Htruthy Hsecret).
  - destruct (getRandomBytesFrom_store _ _ _ _ Hsecret) as [_ Hclock].
    cbn [clock set_store] in Hclock. rewrite Hclock.
    cbn [sign payload signed_with defined].
    destruct (prop "username" (body req)); repeat split; reflexivity.
Qed.

Lemma authorization_answers_token_witness :
  exists token w1,
    handle Sample.memory Sample.secrets Sample.router
      (Sample.post ["authorize"] Sample.alice) Sample.registered
      = (respond {| status := 200; body_of := JsonToken token |}, w1) /\
    JS.get "context" (payload token) = Some (JObject [("user", Sample.alice)]).
Proof.
  edestruct (authorization_answers_token Sample.memory Sample.secrets Sample.router
               (Sample.post ["authorize"] Sample.alice) Sample.registered)
    as (token & Hhandle & _ & Hcontext & _);
    [reflexivity | reflexivity | vm_compute; reflexivity | vm_compute; reflexivity
    | reflexivity | vm_compute; reflexivity |].
  exists token. eexists. split; [exact Hhandle|exact Hcontext].
Defined.

(** X18.  Authorization: when [findOne] rejects, the answer is status 403
    with the message of the collaborator's error, and the secrets are not
    touched. *)
Theorem authorization_surfaces_lookup_error {Store : Type} (collection : Collection Store)
    (secretsDir : list string) (r : Router) (req : Request) (w : World Store)
    (err : Error) (st : Store) :
  method req = "POST" -> path req = ["authorize"] ->
  Credentials.validate (body req) = None ->
  findOne collection (body req) (store w) = (Rejected err, st) ->
  handle collection secretsDir r req w
    = (respond {| status := 403; body_of := Json (JString (message err)) |},
       set_store st w).
Proof.
  intros Hm Hp Hvalid Hfind. rewrite handle_authorize by assumption.
  unfold post_authorize, authorize. now rewrite Hfind.
Qed.

Lemma authorization_surfaces_lookup_error_witness :
  handle Scenario.offline Sample.secrets Sample.router
    (Sample.post ["authorize"] Sample.alice) Sample.registered
  = (respond {| status := 403; body_of := Json (JString "failed to connect to server") |},
     Sample.registered).
Proof.
  apply (authorization_surfaces_lookup_error Scenario.offline Sample.secrets Sample.router
           (Sample.post ["authorize"] Sample.alice) Sample.registered Scenario.UNREACHABLE
           [Sample.alice; Sample.bob] eq_refl eq_refl ltac:(vm_compute; reflexivity) eq_refl).
Defined.

(** X19.  Authorization: when the secret can be neither read nor created
    ([getRandomBytesFrom] throws), a user that was found gets no token:
    the answer is status 403 with the message of the file system error. *)
Theorem authorization_without_secret {Store : Type} (collection : Collection Store)
    (secretsDir : list string) (r : Router) (req : Request) (w w1 : World Store)
    (user : option json) (st : Store) (err : Error) :
  method req = "POST" -> path req = ["authorize"] ->
  Credentials.validate (body req) = None ->
  findOne collection (body req) (store w) = (Resolved user, st) -> falsy user = false ->
  getRandomBytesFrom (secretPath collection secretsDir) (set_store st w) = (Throw err, w1) ->
  handle collection secretsDir r req w
    = (respond {| status := 403; body_of := Json (JString (message err)) |}, w1).
Proof.
  intros Hm Hp Hvalid Hfind Htruthy Hsecret. rewrite handle_authorize by assumption.
  unfold post_authorize, authorize. now rewrite Hfind, Htruthy, Hsecret.
Qed.

Lemma authorization_without_secret_witness :
  fst (handle Sample.memory Sample.secrets Sample.router
         (Sample.post ["authorize"] Sample.alice) Scenario.blocked)
  = respond {| status := 403; body_of := Json (JString "ENOTDIR: not a directory") |}.
Proof.
  rewrite (authorization_without_secret Sample.memory Sample.secrets Sample.router
             (Sample.post ["authorize"] Sample.alice) Scenario.blocked Scenario.blocked
             (Some Sample.alice) [Sample.alice; Sample.bob] ENOTDIR
             eq_refl eq_refl ltac:(vm_compute; reflexivity) ltac:(vm_compute; reflexivity)
             eq_refl ltac:(vm_compute; reflexivity)).
  reflexivity.
Defined.

(* ===================================================================== *)
(** * Further properties of the guard on /:user *)
(* ===================================================================== *)





(** X22.  End to end: once the guard is attached, a token that [authorize]
    issues for the username [u] (on a disk as the attachment left it) is
    admitted by the guard on every path [/u/...]: the request goes on to
    the handlers after the router. *)
Theorem issued_token_opens_own_paths {Store : Type} (collection : Collection Store)
    (secretsDir : list string) (w0 w1 w w' : World Store) (r : Router)
    (secret : list Byte.byte) (credentials : json) (u : string) (token : Token)
    (req : Request) (rest : list string) :
  attach collection secretsDir w0 = (r, w1) -> guard r = Some secret ->
  fs w = fs w1 ->
  prop "username" credentials = Some (JString u) ->
  authorize collection secretsDir credentials w = (Resolved token, w') ->
  path req = u :: rest -> path req <> ["authorize"] -> bearer req = Some token ->
  handle collection secretsDir r req w' = (pass_on None None, w').
Proof.
  intros Hattach Hguard Hdisk Hu Hauth Hpath Hne Hbearer.
  unfold attach in Hattach.
  destruct (getRandomBytesFrom _ w0) as [[s|err] w0'] eqn:Hfirst;
    injection Hattach as <- <-; [|discriminate Hguard].
  cbn [guard] in Hguard. injection Hguard as ->.
  destruct (authorize_inv _ _ _ _ _ _ Hauth) as (user & st & s' & _ & Hsecret & Hkey & Hsub).
  rewrite (getRandomBytesFrom_on_same_disk _ _ _ _ (set_store st w) Hfirst Hdisk) in Hsecret.
  injection Hsecret as <- _.
  rewrite (handle_guard collection secretsDir {| guard := Some secret |} req w'
             secret u rest eq_refl Hpath Hne).
  unfold guard_stack, expressJWT, verify, subject_check, strict_eq_string.
  rewrite Hbearer, Hkey.
  destruct (decide (secret = secret)) as [_|Hno]; [|congruence].
  now rewrite Hsub, Hu, String.eqb_refl.
Qed.

Lemma issued_token_opens_own_paths_witness :
  exists token w',
    authorize Sample.memory Sample.secrets Sample.bob Sample.ready = (Resolved token, w') /\
    handle Sample.memory Sample.secrets Sample.router
      {| method := "GET"; path := ["bob_2"; "inbox"]; body := JObject [];
         bearer := Some token |} w'
    = (pass_on None None, w').
Proof.
  destruct (authorize Sample.memory Sample.secrets Sample.bob Sample.ready)
    as [[token|err] w'] eqn:Hauth; [|vm_compute in Hauth; discriminate Hauth].
  exists token, w'. split; [reflexivity|].
  destruct (Sample.router) as [[secret|]] eqn:Hrouter; [|discriminate Hrouter].
  apply (issued_token_opens_own_paths Sample.memory Sample.secrets Sample.registered
           Sample.ready Sample.ready w' {| guard := Some secret |} secret Sample.bob "bob_2"
           token _ ["inbox"]); try reflexivity; try assumption; try discriminate.
  unfold Sample.ready. rewrite <- Hrouter. unfold Sample.router.
  now destruct (attach Sample.memory Sample.secrets Sample.registered).
Defined.



(** X24.  One key per namespace: two authorizations one after the other
    sign with the same secret and leave the disk as it was after the
    first, so the earlier token still verifies under the secret in use. *)
Theorem later_tokens_share_the_key {Store : Type} (collection : Collection Store)
    (secretsDir : list string) (c1 c2 : json) (w w1 w2 : World Store) (t1 t2 : Token) :
  authorize collection secretsDir c1 w = (Resolved t1, w1) ->
  authorize collection secretsDir c2 w1 = (Resolved t2, w2) ->
  signed_with t2 = signed_with t1 /\ fs w2 = fs w1 /\
  verify t1 (signed_with t2) = Return (payload t1).
Proof.
  intros Hfirst Hsecond.
  destruct (authorize_inv _ _ _ _ _ _ Hfirst) as (u1 & st1 & s1 & _ & Hs1 & Hk1 & _).
  destruct (authorize_inv _ _ _ _ _ _ Hsecond) as (u2 & st2 & s2 & _ & Hs2 & Hk2 & _).
  rewrite (getRandomBytesFrom_on_same_disk _ _ _ _ (set_store st2 w1) Hs1 eq_refl) in Hs2.
  injection Hs2 as <- <-. rewrite Hk1, Hk2. repeat split.
  unfold verify. rewrite Hk1.
  destruct (decide (s1 = s1)) as [_|Hno]; [reflexivity|congruence].
Qed.

Lemma later_tokens_share_the_key_witness :
  exists t1 w1 t2 w2,
    authorize Sample.memory Sample.secrets Sample.alice Sample.registered
      = (Resolved t1, w1) /\
    authorize Sample.memory Sample.secrets Sample.bob w1 = (Resolved t2, w2) /\
    verify t1 (signed_with t2) = Return (payload t1).
Proof.
  destruct (authorize Sample.memory Sample.secrets Sample.alice Sample.registered)
    as [[t1|e1] w1] eqn:H1; [|vm_compute in H1; discriminate H1].
  destruct (authorize Sample.memory Sample.secrets Sample.bob w1)
    as [[t2|e2] w2] eqn:H2.
  - exists t1, w1, t2, w2. split; [reflexivity|]. split; [exact H2|].
    now destruct (later_tokens_share_the_key _ _ _ _ _ _ _ _ _ H1 H2) as (_ & _ & H).
  - exfalso. vm_compute in H1. injection H1 as <- <-. vm_compute in H2. discriminate H2.
Defined.

(** X25.  Each route uses its own operation of the collaborator and
    nothing else of it: the outcome of [POST /] depends on [insertOne]
    alone (not on [findOne], the name, the secrets directory or the
    guard), and the outcome of [POST /authorize] on [findOne] and the name
    alone. *)
Theorem routes_use_their_own_operation {Store : Type} (c c' : Collection Store)
    (dir dir' : list string) (r r' : Router) (req : Request) (w : World Store) :
  method req = "POST" ->
  (path req = [] -> insertOne c' = insertOne c ->
   handle c' dir' r' req w = handle c dir r req w) /\
  (path req = ["authorize"] -> findOne c' = findOne c ->
   collectionName c' = collectionName c ->
   handle c' dir r' req w = handle c dir r req w).
Proof.
  intros Hm. split.
  - intros Hp Hinsert. rewrite !(handle_post_root _ _ _ _ _ Hm Hp).
    unfold guarded, post_root, register. now rewrite Hinsert.
  - intros Hp Hfind Hname. rewrite !(handle_post_authorize _ _ _ _ _ Hm Hp).
    unfold guarded, post_authorize, authorize, secretPath. now rewrite Hfind, Hname.
Qed.

Lemma routes_use_their_own_operation_witness :
  handle Scenario.admins ["tmp"] Users.Users (Sample.post [] Sample.alice) Sample.empty
  = handle Sample.memory Sample.secrets Sample.router (Sample.post [] Sample.alice)
      Sample.empty.
Proof.
  apply (proj1 (routes_use_their_own_operation Sample.memory Scenario.admins
                  Sample.secrets ["tmp"] Sample.router Users.Users
                  (Sample.post [] Sample.alice) Sample.empty eq_refl));
    reflexivity.
Defined.

(* ===================================================================== *)
(** * What the router never does *)
(* ===================================================================== *)

Section OutcomeFacts.

Context {Store : Type}.
Variable collection : Collection Store.
Variable secretsDir : list string.

(** The three shapes an outcome of the [Credentials.middleware] routes can
    have. *)
Lemma guarded_outcome (handler : Request -> World Store -> Outcome * World Store)
    (req : Request) (w : World Store) :
  guarded handler req w = handler req w \/
  exists msg, guarded handler req w
              = (respond {| status := 400; body_of := Json (JString msg) |}, w).
Proof.
  unfold guarded, Credentials.middleware.
  destruct (Credentials.validate (body req)) as [err|]; [right|now left].
  destruct (String.eqb _ _); [|destruct (String.eqb _ _)]; eexists; reflexivity.
Qed.

(** What the stack on [/:user] gives. *)
Lemma guard_stack_outcome (secret : list Byte.byte) (user : string) (req : Request) :
  (exists msg, guard_stack secret user req
               = respond {| status := 401; body_of := Text msg |}) \/
  (exists token claims,
     bearer req = Some token /\ verify token secret = Return claims /\
     guard_stack secret user req
     = {| response := sent (subject_check user claims);
          downstream := true; error := None |}).
Proof.
  unfold guard_stack, expressJWT.
  destruct (bearer req) as [token|]; [|left; eexists; reflexivity].
  destruct (verify token secret) as [claims|err] eqn:Hverify.
  - right. now exists token, claims.
  - left. unfold verify in Hverify. destruct (decide _); [discriminate|].
    injection Hverify as <-. eexists. reflexivity.
Qed.

End OutcomeFacts.

(** X26.  The router answers with no status but 200, 400, 401 and 403,
    whatever the request, the collaborator and the disk do. *)
Theorem statuses_of_the_router {Store : Type} (collection : Collection Store)
    (secretsDir : list string) (r : Router) (req : Request) (w : World Store)
    (resp : Response) :
  response (fst (handle collection secretsDir r req w)) = Some resp ->
  In (status resp) [200; 400; 401; 403].
Proof.
  unfold handle.
  destruct (decide (path req = [])) as [Hroot|Hroot];
    [|destruct (decide (path req = ["authorize"])) as [Hauth|Hauth]].
  - destruct (is_post req); [|discriminate].
    destruct (guarded_outcome (post_root collection) req w) as [->|(msg & ->)].
    + unfold post_root. destruct (register _ _ _) as [[result|err] w'];
        intros [= <-]; cbn; auto.
    + intros [= <-]; cbn; auto.
  - destruct (is_post req); [|intros [= <-]; cbn; auto].
    destruct (guarded_outcome (post_authorize collection secretsDir) req w)
      as [->|(msg & ->)].
    + unfold post_authorize. destruct (authorize _ _ _ _) as [[token|err] w'];
        intros [= <-]; cbn; auto.
    + intros [= <-]; cbn; auto.
  - destruct (path req) as [|user rest]; [discriminate|].
    destruct (guard r) as [secret|]; [|discriminate].
    destruct (guard_stack_outcome secret user req)
      as [(msg & Hstack)|(token & claims & _ & _ & Hstack)]; cbn [fst]; rewrite Hstack.
    + intros [= <-]; cbn; auto.
    + unfold subject_check. cbn [response sent].
      destruct (negb _); [|discriminate]. intros [= <-]; cbn; auto.
Qed.

Lemma statuses_of_the_router_witness :
  exists resp,
    response (fst (handle Sample.memory Sample.secrets {| guard := Some [Byte.x01] |}
                     {| method := "GET"; path := ["bob_2"]; body := JObject [];
                        bearer := None |} Sample.empty)) = Some resp /\
    In (status resp) [200; 400; 401; 403].
Proof.
  eexists. split; [reflexivity|].
  apply (statuses_of_the_router Sample.memory Sample.secrets
           {| guard := Some [Byte.x01] |}
           {| method := "GET"; path := ["bob_2"]; body := JObject []; bearer := None |}
           Sample.empty
           {| status := 401; body_of := Text "No authorization token was found" |}
           eq_refl).
Defined.

(** X27.  The router both answers a request and passes it on in one case
    only: the guard is attached, the token verifies, and its subject is
    not the [<user>] segment; the answer is then status 401.  Every other
    answer ends the request. *)
Theorem answered_and_passed_on_only_on_mismatch {Store : Type}
    (collection : Collection Store) (secretsDir : list string) (r : Router)
    (req : Request) (w : World Store) (resp : Response) :
  response (fst (handle collection secretsDir r req w)) = Some resp ->
  downstream (fst (handle collection secretsDir r req w)) = true ->
  status resp = 401 /\
  exists secret user rest token claims,
    guard r = Some secret /\ path req = user :: rest /\
    bearer req = Some token /\ verify token secret = Return claims /\
    strict_eq_string user (JS.get "sub" claims) = false.
Proof.
  unfold handle.
  destruct (decide (path req = [])) as [Hroot|Hroot];
    [|destruct (decide (path req = ["authorize"])) as [Hauth|Hauth]].
  - destruct (is_post req); [|discriminate].
    destruct (guarded_outcome (post_root collection) req w) as [->|(msg & ->)].
    + unfold post_root. destruct (register _ _ _) as [[result|err] w']; discriminate.
    + discriminate.
  - destruct (is_post req); [|discriminate].
    destruct (guarded_outcome (post_authorize collection secretsDir) req w)
      as [->|(msg & ->)].
    + unfold post_authorize. destruct (authorize _ _ _ _) as [[token|err] w']; discriminate.
    + discriminate.
  - destruct (path req) as [|user rest] eqn:Hpath; [discriminate|].
    destruct (guard r) as [secret|] eqn:Hguard; [|discriminate].
    destruct (guard_stack_outcome secret user req)
      as [(msg & Hstack)|(token & claims & Hbearer & Hverify & Hstack)];
      cbn [fst]; rewrite Hstack; [discriminate|].
    unfold subject_check. cbn [response sent downstream].
    destruct (strict_eq_string user (JS.get "sub" claims)) eqn:Hsame; [discriminate|].
    cbn [negb]. intros [= <-] _. split; [reflexivity|].
    now exists secret, user, rest, token, claims.
Qed.

Lemma answered_and_passed_on_only_on_mismatch_witness :
  exists resp,
    response (fst (handle Sample.memory Sample.secrets {| guard := Some [Byte.x00] |}
                     {| method := "GET"; path := ["alice_1"; "profile"]; body := JObject [];
                        bearer := Some Scenario.forged |} Sample.registered)) = Some resp /\
    status resp = 401.
Proof.
  eexists. split; [reflexivity|].
  apply (answered_and_passed_on_only_on_mismatch Sample.memory Sample.secrets
           {| guard := Some [Byte.x00] |}
           {| method := "GET"; path := ["alice_1"; "profile"]; body := JObject [];
              bearer := Some Scenario.forged |} Sample.registered _ eq_refl eq_refl).
Defined.
